(** * viznet: connection points of nodes (viznet/edgenode.py)

    A shallow embedding of [Node], [Edge] and [Pin] of [viznet/edgenode.py]
    and of the functions that compute where a wire attaches to a node:
    [position], [width], [height], [_offset_dict], [__getattr__], [pin] and
    [get_connection_point]; and of [EdgeNode.text], which places a label.

    Numbers.  The source computes with numpy float64 arrays.  The embedding
    takes exact rational numbers ([Q], compared with [==]) for them, so the
    theorems speak of the arithmetic the code writes down, not of rounding;
    the constant [0.8] is the rational 4/5 and [x / 2.] is division by 2.
    A 2-component array is a pair [vec]; an [(n,2)] array is a [list vec].
    Where rounding decides what is returned, which candidate
    [get_connection_point] picks among close scores, the method is embedded
    once more on binary64 numbers, in the module [Float64].

    Errors.  A Python exception is a value [Raise e] of [result]; the
    exception classes that the modelled code can raise are the constructors
    of [exn]. *)

From Stdlib Require Import ZArith QArith Qabs Qminmax Lqa Floats Uint63.
From Stdlib Require Import List String Ascii Bool Arith Lia.
Import ListNotations.

Local Open Scope Q_scope.

(** ** Exceptions *)

Inductive exn : Type :=
| KeyError (key : string)   (* [d[k]] on a dict without [k] *)
| ValueError                (* unpacking of the wrong length, [max]/[argmax] of an empty array *)
| TypeError                 (* an array operation on the Python list [[]] *)
| AttributeError            (* raised by [__getattr__], or a missing attribute of a patch *)
| IndexError                (* index out of range *)
| RuntimeError.             (* a bare [raise] with no active exception *)

Inductive result (A : Type) : Type :=
| Ok (a : A)
| Raise (e : exn).

Arguments Ok {A} a.
Arguments Raise {A} e.

Definition bind {A B : Type} (m : result A) (k : A -> result B) : result B :=
  match m with
  | Ok a => k a
  | Raise e => Raise e
  end.

Notation "x <- m ;; k" := (bind m (fun x => k))
  (at level 61, m at next level, right associativity).

(** ** Arrays of two components *)

Definition vec : Type := (Q * Q)%type.

Definition vadd (a b : vec) : vec := (fst a + fst b, snd a + snd b).
Definition vsub (a b : vec) : vec := (fst a - fst b, snd a - snd b).
Definition vscale (a : vec) (k : Q) : vec := (fst a * k, snd a * k).
Definition scalev (k : Q) (a : vec) : vec := (k * fst a, k * snd a).
Definition vdiv (a : vec) (k : Q) : vec := (fst a / k, snd a / k).
Definition dot (a b : vec) : Q := fst a * fst b + snd a * snd b.

(** Equality of arrays, component by component. *)
Definition veq (a b : vec) : Prop := fst a == fst b /\ snd a == snd b.

Infix "=v=" := veq (at level 70, no associativity).

(** ** Reductions of numpy *)

Definition sum (l : list Q) : Q := fold_left Qplus l 0.

(** [a.mean()].  On an empty array numpy answers [nan] (with a warning);
    rationals have no such value and the quotient below is [0] there.  The
    theorems of this file read a mean on a non-empty array only. *)
Definition mean (l : list Q) : Q := sum l / inject_Z (Z.of_nat (List.length l)).

(** [a.mean(axis=0)] of an [(n,2)] array. *)
Definition mean_axis0 (l : list vec) : vec := (mean (map fst l), mean (map snd l)).

(** [a.max()]: raises [ValueError] on an empty array. *)
Definition amax (l : list Q) : result Q :=
  match l with
  | [] => Raise ValueError
  | x :: l' => Ok (fold_left Qmax l' x)
  end.

(** [np.argmax(a)]: the index of the first occurrence of the maximum;
    raises [ValueError] on an empty array. *)
Fixpoint argmax_from (best_i : nat) (best : Q) (i : nat) (l : list Q) : nat :=
  match l with
  | [] => best_i
  | x :: l' =>
      if Qlt_le_dec best x
      then argmax_from i x (S i) l'
      else argmax_from best_i best (S i) l'
  end.

Definition argmax (l : list Q) : result nat :=
  match l with
  | [] => Raise ValueError
  | x :: l' => Ok (argmax_from 0%nat x 1%nat l')
  end.

(** [a[i]] for an index that [argmax] produced. *)
Definition getrow (l : list vec) (i : nat) : result vec :=
  match nth_error l i with
  | Some c => Ok c
  | None => Raise IndexError
  end.

(** ** Strings and dicts *)

(** [s.split(sep)] for a one-character separator: the pieces between the
    occurrences of [sep]; the empty string gives one empty piece. *)
Fixpoint split (sep : ascii) (s : string) : list string :=
  match s with
  | EmptyString => [EmptyString]
  | String c s' =>
      if Ascii.eqb c sep
      then EmptyString :: split sep s'
      else match split sep s' with
           | [] => [String c EmptyString]
           | piece :: pieces => String c piece :: pieces
           end
  end.

(** A dict literal with string keys, in the order it is written. *)
Definition dict (V : Type) : Type := list (string * V).

(** [d[k]]: raises [KeyError]. *)
Fixpoint getitem {V : Type} (d : dict V) (k : string) : result V :=
  match d with
  | [] => Raise (KeyError k)
  | (k', v) :: d' => if String.eqb k k' then Ok v else getitem d' k
  end.

(** [x in [a, b, ...]] for strings. *)
Definition str_in (x : string) (l : list string) : bool :=
  existsb (String.eqb x) l.

(** ** The classes *)

(** The matplotlib patch a node wraps, as far as [Node] looks into it:
    [plt.Circle] with [center] and [radius], [plt.Rectangle] with [get_xy()],
    [get_width()] and [get_height()], [plt.Polygon], and any other patch. *)
Inductive Patch : Type :=
| Circle (center : vec) (radius : Q)
| Rectangle (xy : vec) (rwidth rheight : Q)
| Polygon
| OtherPatch.

(** [Node.__init__]: [style] is a tuple of which only [style[1]], the name
    of the shape, is read; [path] is [obj.get_verts()], taken once at
    construction.  The axes [ax] play no part in the geometry.

    [get_verts] returns an [(n,2)] array, or the Python list [[]] when the
    patch has no polygon (a [Polygon] of fewer than three vertices).  In the
    record a non-empty [path] is the array of its rows and the empty [path]
    is the list [[]], on which the array operations of the methods raise
    [TypeError]. *)
Record Node : Type := mkNode {
  style1 : string;
  obj : Patch;
  path : list vec
}.

(** [Pin]: a dot; its [position] is a stored attribute. *)
Record Pin : Type := mkPin { pin_position : vec }.

(** [Edge]: the two end points stored at construction. *)
Record Edge : Type := mkEdge { start_xy : vec; end_xy : vec }.

Module NodeImpl.

(** [Node.position]: center of a node.  For a patch that is no circle and
    no rectangle it is the mean of [path[:-1]]; the theorems read it only
    where that array has a row (see [mean]).  For a polygon with fewer than
    two rows [width] raises before [pin] with a string, [__getattr__] and
    [text] read the position, and [get_connection_point] raises before it
    uses it. *)
Definition position (n : Node) : vec :=
  match obj n with
  | Circle center _ => center
  | Rectangle (x, y) w h => (x + w / 2, y + h / 2)
  | _ => mean_axis0 (removelast (path n))
  end.

(** [Node.height]. *)
Definition height (n : Node) : result Q :=
  match obj n with
  | Circle _ radius => Ok (radius * 2)
  | Rectangle _ _ h => Ok h
  | Polygon =>
      match path n with
      | [] => Raise TypeError
      | _ :: _ =>
          let ys := map snd (removelast (path n)) in
          m <- amax (map (fun y => Qabs (y - mean ys)) ys) ;;
          Ok (m * 2)
      end
  | OtherPatch => Raise RuntimeError
  end.

(** [Node.width]. *)
Definition width (n : Node) : result Q :=
  match obj n with
  | Circle _ radius => Ok (radius * 2)
  | Rectangle _ w _ => Ok w
  | Polygon =>
      match path n with
      | [] => Raise TypeError
      | _ :: _ =>
          let xs := map fst (removelast (path n)) in
          m <- amax (map (fun x => Qabs (x - mean xs)) xs) ;;
          Ok (m * 2)
      end
  | OtherPatch => Raise RuntimeError
  end.

(** [Node._offset_dict]. *)
Definition _offset_dict (n : Node) : result (dict vec) :=
  w <- width n ;;
  h <- height n ;;
  Ok [ ("top"%string, (0, h / 2));
       ("bottom"%string, (0, - h / 2));
       ("left"%string, (- w / 2, 0));
       ("right"%string, (w / 2, 0)) ].

(** [Node.__getattr__]: called for a name that is not a regular attribute of
    the node.  Whatever goes wrong inside the [try] becomes
    [AttributeError]. *)
Definition __getattr__ (n : Node) (name : string) : result Pin :=
  let body :=
    match split "_" name with
    | [d1; d2] =>
        offset_dict <- _offset_dict n ;;
        o1 <- getitem offset_dict d1 ;;
        o2 <- getitem offset_dict d2 ;;
        let offset := vadd o1 (vscale o2 0.8) in
        Ok (mkPin (vadd offset (position n)))
    | _ => Raise ValueError
    end in
  match body with
  | Ok p => Ok p
  | Raise _ => Raise AttributeError
  end.

(** [Node.get_connection_point]. *)
Definition get_connection_point (n : Node) (direction : vec) : result vec :=
  let shape := style1 n in
  if String.eqb shape "circle" then
    match obj n with
    | Circle center radius => Ok (vadd center (scalev radius direction))
    | _ => Raise AttributeError
    end
  else
    let vertices := path n in
    match vertices with
    | [] => Raise TypeError
    | _ :: _ =>
        let edge_centers :=
          map (fun ab => vdiv (vadd (fst ab) (snd ab)) 2)
              (combine (removelast vertices) (tl vertices)) in
        let candidates := removelast vertices ++ edge_centers in
        let vdirection := (- snd direction, fst direction) in
        let candidates_ := map (fun c => vsub c (position n)) candidates in
        let distance :=
          map (fun c_ => dot c_ direction - Qabs (dot c_ vdirection))
              candidates_ in
        i <- argmax distance ;;
        getrow candidates i
    end.

End NodeImpl.

Import NodeImpl.

(** [Edge.position]. *)
Definition edge_position (e : Edge) : vec := vdiv (vadd (start_xy e) (end_xy e)) 2.

(** What [pin] accepts as [align]: anything with a [position]. *)
Inductive EdgeNode : Type :=
| ANode (n : Node)
| AEdge (e : Edge)
| APin (p : Pin).

Definition position_of (a : EdgeNode) : vec :=
  match a with
  | ANode n => position n
  | AEdge e => edge_position e
  | APin p => pin_position p
  end.

(** The first argument of [pin]: a string, or anything else. *)
Inductive Direction (Theta : Type) : Type :=
| DStr (s : string)
| DTheta (theta : Theta).

Arguments DStr {Theta} s.
Arguments DTheta {Theta} theta.

Section Pin.

(** [viznet.utils.intersection] is imported by the module and is not part
    of it; [pin] hands it every direction that is not a string. *)
Variable Theta : Type.
Variable intersection : list vec -> Theta -> vec -> result vec.

(** [Node.pin]. *)
Definition pin (n : Node) (direction : Direction Theta) (align : option EdgeNode)
  : result Pin :=
  match direction with
  | DStr d =>
      offset_dict <- _offset_dict n ;;
      o <- getitem offset_dict d ;;
      let loc := vadd o (position n) in
      match align with
      | Some a =>
          let target := position_of a in
          if str_in d ["bottom"; "top"]%string then
            Ok (mkPin (fst target, snd loc))
          else if str_in d ["left"; "right"]%string then
            Ok (mkPin (fst loc, snd target))
          else Raise RuntimeError
      | None => Ok (mkPin loc)
      end
  | DTheta theta =>
      loc <- intersection (path n) theta
               (match align with
                | None => position n
                | Some a => position_of a
                end) ;;
      Ok (mkPin loc)
  end.

End Pin.

Arguments pin {Theta} intersection n direction align.

(** ** Vocabulary of the statements *)

(** The four tokens of a symbolic direction. *)
Inductive Token : Type := Top | Bottom | Left | Right.

Definition token_name (t : Token) : string :=
  match t with
  | Top => "top"
  | Bottom => "bottom"
  | Left => "left"
  | Right => "right"
  end.

Definition is_token (d : string) : Prop := exists t, d = token_name t.

(** The offset of a token for a shape of width [w] and height [h], as the
    description of the resolver words it: half the height up or down for
    top and bottom, half the width left or right for left and right. *)
Definition offset (w h : Q) (t : Token) : vec :=
  match t with
  | Top => (0, h / 2)
  | Bottom => (0, - (h / 2))
  | Left => (- (w / 2), 0)
  | Right => (w / 2, 0)
  end.

(** The name [d1_d2] of a compound direction. *)
Definition compound (d1 d2 : string) : string := (d1 ++ "_" ++ d2)%string.

(** A shape: a circle, a rectangle, or a polygon whose boundary has at
    least one vertex before the closing one. *)
Definition is_shape (n : Node) : bool :=
  match obj n with
  | Circle _ _ => true
  | Rectangle _ _ _ => true
  | Polygon => match removelast (path n) with [] => false | _ :: _ => true end
  | OtherPatch => false
  end.

(** An alignment target whose [position] is a number: a pin, an edge, or a
    node whose center is not the mean of an empty array. *)
Definition has_position (a : EdgeNode) : bool :=
  match a with
  | ANode n =>
      match obj n with
      | Circle _ _ => true
      | Rectangle _ _ _ => true
      | _ => match removelast (path n) with [] => false | _ :: _ => true end
      end
  | AEdge _ => true
  | APin _ => true
  end.

(** A node that [get_connection_point] treats as a circle, and one that it
    treats through its boundary path. *)
Definition circle_node (center : vec) (radius : Q) (verts : list vec) : Node :=
  mkNode "circle" (Circle center radius) verts.

Definition by_path (n : Node) : Prop := String.eqb (style1 n) "circle" = false.

(** [p.join(pieces)] for lists of strings. *)
Fixpoint join (sep : ascii) (pieces : list string) : string :=
  match pieces with
  | [] => EmptyString
  | [s] => s
  | s :: rest => (s ++ String sep (join sep rest))%string
  end.

(** The score of a candidate [c] seen from [center] in direction [d]:
    the projection on [d] minus the size of the projection on [d] turned by
    a quarter turn counter-clockwise. *)
Definition perpendicular (d : vec) : vec := (- snd d, fst d).

Definition score (center d c : vec) : Q :=
  dot (vsub c center) d - Qabs (dot (vsub c center) (perpendicular d)).

Definition midpoint (a b : vec) : vec := vdiv (vadd a b) 2.

(** The candidates of a boundary given by its vertices [vs], each once:
    the vertices, then the middle of every edge, the last edge being the one
    from the last vertex back to the first. *)
Definition ring_edges (vs : list vec) : list (vec * vec) :=
  combine vs (tl vs ++ firstn 1 vs).

Definition candidate_set (vs : list vec) : list vec :=
  vs ++ map (fun e => midpoint (fst e) (snd e)) (ring_edges vs).

(** [m] is the arithmetic mean of [xs]. *)
Definition is_mean (xs : list Q) (m : Q) : Prop :=
  m * inject_Z (Z.of_nat (List.length xs)) == fold_right Qplus 0 xs.

(** [m] is the largest distance of an element of [xs] from [c]. *)
Definition is_max_abs_dev (xs : list Q) (c m : Q) : Prop :=
  (exists x, In x xs /\ m == Qabs (x - c)) /\
  (forall x, In x xs -> Qabs (x - c) <= m).

Definition dist2 (a b : vec) : Q := dot (vsub a b) (vsub a b).

(** ** The unit square of the end-to-end example *)

Definition unit_square : Node :=
  mkNode "square" Polygon [(0, 0); (1, 0); (1, 1); (0, 1); (0, 0)].

Definition no_intersection : list vec -> unit -> vec -> result vec :=
  fun _ _ _ => Raise ValueError.

(** What the dict of [_offset_dict] holds under a token. *)
Definition dict_offset (w h : Q) (t : Token) : vec :=
  match t with
  | Top => (0, h / 2)
  | Bottom => (0, - h / 2)
  | Left => (- w / 2, 0)
  | Right => (w / 2, 0)
  end.


(** ** A circle of radius one around the origin *)

Definition unit_circle : Node :=
  circle_node (0, 0) 1 [(1, 0); (0, 1); (-1, 0); (0, -1); (1, 0)].

(** The candidates as [get_connection_point] builds them from the stored
    path: all rows but the last, then the middles of consecutive rows. *)
Definition path_candidates (vertices : list vec) : list vec :=
  removelast vertices
  ++ map (fun e => midpoint (fst e) (snd e))
         (combine (removelast vertices) (tl vertices)).

(** ** A rectangle of width 4 and height 2 with its lower left corner at the origin *)

Definition rect_node : Node :=
  mkNode "rectangle" (Rectangle (0, 0) 4 2)
         [(0, 0); (4, 0); (4, 2); (0, 2); (0, 0)].

(** ** The rest of the classes *)

(** [Node.center], [Edge.center] and [Edge.tail]. *)
Definition center (n : Node) : Pin := mkPin (position n).
Definition edge_center (e : Edge) : Pin := mkPin (edge_position e).
Definition tail (e : Edge) : Pin := mkPin (start_xy e).

(** [Pin.get_connection_point], whatever arguments it is given. *)
Definition pin_get_connection_point {A : Type} (p : Pin) (args : A) : vec :=
  pin_position p.

(** [self.width] and [self.height] for the three classes: properties of
    [Node], the constant [0.] for [Edge] and [Pin]. *)
Definition width_of (a : EdgeNode) : result Q :=
  match a with
  | ANode n => width n
  | AEdge _ => Ok 0
  | APin _ => Ok 0
  end.

Definition height_of (a : EdgeNode) : result Q :=
  match a with
  | ANode n => height n
  | AEdge _ => Ok 0
  | APin _ => Ok 0
  end.

(** The [position] argument of [text]: a string, or a point. *)
Inductive TextPosition : Type :=
| AtName (name : string)
| AtPoint (xy : vec).

(** The arguments with which [text] calls [self.ax.text]: the drawing itself
    is matplotlib's. *)
Record TextCall : Type := mkTextCall {
  text_x : Q;
  text_y : Q;
  text_s : string;
  text_va : string;
  text_ha : string;
  text_fontsize : Q;
  text_color : string
}.

Section Text.

(** [viznet.setting.annotate_setting], a dict of the module [setting]. *)
Variable annotate_setting : dict Q.

(** [EdgeNode.text]. *)
Definition text (self : EdgeNode) (s : string) (position : TextPosition)
    (fontsize : option Q) (color : string) (text_offset : option Q)
  : result TextCall :=
  fontsize <- match fontsize with
              | None => getitem annotate_setting "fontsize"
              | Some f => Ok f
              end ;;
  text_offset <- match text_offset with
                 | None => getitem annotate_setting "text_offset"
                 | Some o => Ok o
                 end ;;
  let va := "center"%string in
  let ha := "center"%string in
  placed <-
    match position with
    | AtName name =>
        width <- width_of self ;;
        height <- height_of self ;;
        if String.eqb name "center" then
          Ok (position_of self, va, ha)
        else if String.eqb name "right" then
          Ok (vadd (position_of self) (width * 0.5 + text_offset, 0),
              va, "left"%string)
        else if String.eqb name "left" then
          Ok (vadd (position_of self) (- width * 0.5 - text_offset, 0),
              va, "right"%string)
        else if String.eqb name "top" then
          Ok (vadd (position_of self) (0, height * 0.5 + text_offset),
              "bottom"%string, ha)
        else if String.eqb name "bottom" then
          Ok (vadd (position_of self) (0, - height * 0.5 - text_offset),
              "top"%string, ha)
        else Raise RuntimeError
    | AtPoint xy => Ok (xy, va, ha)
    end ;;
  let '(xy, va, ha) := placed in
  Ok (mkTextCall (fst xy) (snd xy) s va ha fontsize color).

End Text.

(** ** Vocabulary of the further statements *)

(** The unit vector that points to the side a token names. *)
Definition unit_direction (t : Token) : vec :=
  match t with
  | Top => (0, 1)
  | Bottom => (0, -1)
  | Left => (-1, 0)
  | Right => (1, 0)
  end.

Definition is_vertical (t : Token) : bool :=
  match t with
  | Top | Bottom => true
  | Left | Right => false
  end.

(** The side of the label on which [text] anchors it: [(va, ha)]. *)
Definition anchor_of (t : Token) : string * string :=
  match t with
  | Top => ("bottom", "center")
  | Bottom => ("top", "center")
  | Left => ("center", "right")
  | Right => ("center", "left")
  end%string.

(** [c] lies in the box of width [w] and height [h] around [center]. *)
Definition in_box (center : vec) (w h : Q) (c : vec) : Prop :=
  Qabs (fst c - fst center) <= w / 2 /\ Qabs (snd c - snd center) <= h / 2.

(** The node moved by [t]: the patch and every row of its path. *)
Definition translate_patch (t : vec) (p : Patch) : Patch :=
  match p with
  | Circle c r => Circle (vadd c t) r
  | Rectangle xy w h => Rectangle (vadd xy t) w h
  | Polygon => Polygon
  | OtherPatch => OtherPatch
  end.

Definition translate (t : vec) (n : Node) : Node :=
  mkNode (style1 n) (translate_patch t (obj n)) (map (fun v => vadd v t) (path n)).

(** The four corners of the rectangle with lower left corner [xy], as a
    closed ring, counter-clockwise from [xy]. *)
Definition rectangle_ring (xy : vec) (w h : Q) : list vec :=
  [ xy;
    (fst xy + w, snd xy);
    (fst xy + w, snd xy + h);
    (fst xy, snd xy + h);
    xy ].

(** The result [r'] is the result [r] moved by [t]: the same error, or the
    point moved by [t]. *)
Definition moved_by (t : vec) (r r' : result vec) : Prop :=
  match r, r' with
  | Ok c, Ok c' => c' =v= vadd c t
  | Raise e, Raise e' => e = e'
  | _, _ => False
  end.

Definition example_setting : dict Q :=
  [("fontsize"%string, 12); ("text_offset"%string, 0.07)].

(** A polygon node whose path has a single row, one whose path is the empty
    list, and the rectangle of [rect_node] with its path written as the ring
    of its corners. *)
Definition single_row_polygon : Node := mkNode "polygon" Polygon [(1, 1)].

Definition empty_list_polygon : Node := mkNode "polygon" Polygon [].

Definition rect_ring_node : Node :=
  mkNode "rectangle" (Rectangle (0, 0) 4 2) (rectangle_ring (0, 0) 4 2).

(** * [get_connection_point] in float64

    Which candidate [get_connection_point] returns is decided by comparing
    computed scores, and rounding can order two scores otherwise than exact
    arithmetic does.  This module embeds the method once more, on binary64
    numbers (Rocq's primitive floats, which follow IEEE 754 with rounding to
    nearest even, as numpy's float64 does).  The elementwise operations of
    the source ([-], [+], [/ 2.], [abs], unary minus) are the float
    operations.  Two operations are numpy's own and round inside: the mean
    along axis 0 and the product [a.dot(b)] of an [(m,2)] array with a
    2-vector, which numpy hands to the BLAS library it is linked with.  The
    embedding takes both as parameters, [np_mean0] and [np_dot], and
    [mean0] and [dot] below are their plain evaluations. *)

Module Float64.

Local Open Scope float_scope.

Definition vec64 : Type := (float * float)%type.

Inductive Patch : Type :=
| Circle (center : vec64) (radius : float)
| Rectangle (xy : vec64) (rwidth rheight : float)
| Polygon
| OtherPatch.

(** As [Node] above: a non-empty [path] is an [(n,2)] array, the empty
    [path] is the Python list [[]]. *)
Record Node : Type := mkNode {
  style1 : string;
  obj : Patch;
  path : list vec64
}.

(** [np.argmax] on float64: the first maximum, and the first [nan] if there
    is one.  numpy's loop takes an element as the new maximum when the test
    [element <= maximum] fails, and stops at a [nan]. *)
Fixpoint argmax_loop (mp : float) (max_ind i : nat) (ip : list float) : nat :=
  match ip with
  | [] => max_ind
  | x :: ip' =>
      if x <=? mp then argmax_loop mp max_ind (S i) ip'
      else if is_nan x then i
      else argmax_loop x i (S i) ip'
  end.

Definition argmax (a : list float) : result nat :=
  match a with
  | [] => Raise ValueError
  | x :: a' => Ok (if is_nan x then 0%nat else argmax_loop x 0%nat 1%nat a')
  end.

Definition getrow (a : list vec64) (i : nat) : result vec64 :=
  match nth_error a i with
  | Some c => Ok c
  | None => Raise IndexError
  end.

(** [a - b] of two arrays of the same length. *)
Fixpoint sub_arrays (a b : list float) : list float :=
  match a, b with
  | x :: a', y :: b' => (x - y) :: sub_arrays a' b'
  | _, _ => []
  end.

Section Numpy.

Variable np_mean0 : list vec64 -> vec64.
Variable np_dot : list vec64 -> vec64 -> list float.

(** [Node.position]. *)
Definition position (n : Node) : vec64 :=
  match obj n with
  | Circle center _ => center
  | Rectangle (x, y) w h => (x + w / 2, y + h / 2)
  | _ => np_mean0 (removelast (path n))
  end.

(** [Node.get_connection_point]. *)
Definition get_connection_point (n : Node) (direction : vec64) : result vec64 :=
  let shape := style1 n in
  if String.eqb shape "circle" then
    match obj n with
    | Circle center radius =>
        Ok (fst center + radius * fst direction,
            snd center + radius * snd direction)
    | _ => Raise AttributeError
    end
  else
    let vertices := path n in
    match vertices with
    | [] => Raise TypeError
    | _ :: _ =>
        let edge_centers :=
          map (fun ab => ((fst (fst ab) + fst (snd ab)) / 2,
                          (snd (fst ab) + snd (snd ab)) / 2))
              (combine (removelast vertices) (tl vertices)) in
        let candidates := removelast vertices ++ edge_centers in
        let vdirection := (- snd direction, fst direction) in
        let candidates_ :=
          map (fun c => (fst c - fst (position n), snd c - snd (position n)))
              candidates in
        let distance :=
          sub_arrays (np_dot candidates_ direction)
                     (map abs (np_dot candidates_ vdirection)) in
        i <- argmax distance ;;
        getrow candidates i
    end.

End Numpy.

(** The plain evaluations: the mean adds the rows one after the other,
    starting from 0, and divides by their number; every product of a row
    with the vector is the rounded sum of the two rounded products. *)
Definition mean0 (a : list vec64) : vec64 :=
  let count := of_uint63 (Uint63.of_Z (Z.of_nat (List.length a))) in
  (fold_left PrimFloat.add (map fst a) 0 / count,
   fold_left PrimFloat.add (map snd a) 0 / count).

Definition dot (a : list vec64) (b : vec64) : list float :=
  map (fun row => fst row * fst b + snd row * snd b) a.

(** ** Vocabulary of the statements *)

Definition by_path (n : Node) : Prop := String.eqb (style1 n) "circle" = false.

Definition midpoint (a b : vec64) : vec64 :=
  ((fst a + fst b) / 2, (snd a + snd b) / 2).

(** The candidates as the method builds them from the stored path. *)
Definition path_candidates (vertices : list vec64) : list vec64 :=
  removelast vertices
  ++ map (fun e => midpoint (fst e) (snd e))
         (combine (removelast vertices) (tl vertices)).

(** The candidates of a boundary given by its vertices [vs], each once: the
    vertices, then the middle of every edge, the closing edge last. *)
Definition candidate_set (vs : list vec64) : list vec64 :=
  vs ++ map (fun e => midpoint (fst e) (snd e))
            (combine vs (tl vs ++ firstn 1 vs)).

(** The scores as the method computes them, one for each candidate:
    dot(c - centroid, d) - |dot(c - centroid, perp d)|, with perp d the
    quarter turn [(- dy, dx)] of [d]. *)
Definition computed_scores
    (np_mean0 : list vec64 -> vec64) (np_dot : list vec64 -> vec64 -> list float)
    (n : Node) (d : vec64) : list float :=
  let offsets :=
    map (fun c => (fst c - fst (position np_mean0 n),
                   snd c - snd (position np_mean0 n)))
        (path_candidates (path n)) in
  sub_arrays (np_dot offsets d) (map abs (np_dot offsets (- snd d, fst d))).



(** The number a float stands for (0 for the infinities and [nan]). *)
Definition exact (x : float) : Q :=
  match Prim2SF x with
  | S754_finite s m e =>
      (if s then - inject_Z (Zpos m) else inject_Z (Zpos m)) * 2 ^ e
  | _ => 0%Q
  end%Q.

Definition exact_vec (v : vec64) : vec := (exact (fst v), exact (snd v)).

(** ** Example nodes *)

Definition triangle : Node :=
  mkNode "triangle" Polygon [(0, 0); (0, 1); (1, 2); (0, 0)].

Definition unit_square : Node :=
  mkNode "square" Polygon [(0, 0); (1, 0); (1, 1); (0, 1); (0, 0)].

Definition single_row : Node := mkNode "polygon" Polygon [(1, 1)].

Definition empty_list : Node := mkNode "polygon" Polygon [].

End Float64.

(** The triangle of [Float64.triangle] with exact coordinates. *)
Definition triangle_exact : Node :=
  mkNode "triangle" Polygon [(0, 0); (0, 1); (1, 2); (0, 0)].

(** * Properties *)

(** ** The end-to-end example *)

Example unit_square_top :
  exists p, pin no_intersection unit_square (DStr "top") None = Ok p /\
            pin_position p =v= (0.5, 1).
Proof. eexists; split; [reflexivity | split; vm_compute; reflexivity]. Qed.

Example unit_square_diagonal :
  get_connection_point unit_square (1, 1) = Ok (1, 1).
Proof. vm_compute. reflexivity. Qed.

Example split_examples :
  split "_" "top_left" = ["top"; "left"]%string /\
  split "_" "top__left" = ["top"; ""; "left"]%string /\
  split "_" "" = [""]%string /\
  split "_" "top_" = ["top"; ""]%string.
Proof. repeat split. Qed.

(** ** Basic facts *)

Lemma veq_refl (a : vec) : a =v= a.
Proof. split; reflexivity. Qed.

Lemma Qhalf (x : Q) : x / 2 == x * (1 # 2).
Proof. field. Qed.

Lemma is_shape_extent (n : Node) :
  is_shape n = true -> exists w h, width n = Ok w /\ height n = Ok h.
Proof.
  unfold is_shape, width, height.
  destruct (obj n); try discriminate; intros H.
  - eauto.
  - eauto.
  - destruct (path n) as [| p ps]; [discriminate |].
    destruct (removelast (p :: ps)) as [| v vs]; [discriminate |].
    simpl. eauto.
Qed.

Lemma offset_dict_extent (n : Node) (w h : Q) :
  width n = Ok w -> height n = Ok h ->
  _offset_dict n =
  Ok [ ("top"%string, (0, h / 2)); ("bottom"%string, (0, - h / 2));
       ("left"%string, (- w / 2, 0)); ("right"%string, (w / 2, 0)) ].
Proof. intros Hw Hh. unfold _offset_dict. rewrite Hw, Hh. reflexivity. Qed.

Lemma dict_offset_eq (w h : Q) (t : Token) : dict_offset w h t =v= offset w h t.
Proof.
  destruct t; split; simpl; try reflexivity; field.
Qed.

Lemma getitem_token {V : Type} (top bottom left right : V) (t : Token) :
  getitem [ ("top"%string, top); ("bottom"%string, bottom);
            ("left"%string, left); ("right"%string, right) ] (token_name t)
  = Ok match t with
       | Top => top | Bottom => bottom | Left => left | Right => right
       end.
Proof. destruct t; reflexivity. Qed.

Lemma getitem_other {V : Type} (top bottom left right : V) (d : string) :
  ~ is_token d ->
  getitem [ ("top"%string, top); ("bottom"%string, bottom);
            ("left"%string, left); ("right"%string, right) ] d
  = Raise (KeyError d).
Proof.
  intros Hd. simpl.
  destruct (String.eqb_spec d "top") as [-> | _]; [elim Hd; now exists Top |].
  destruct (String.eqb_spec d "bottom") as [-> | _]; [elim Hd; now exists Bottom |].
  destruct (String.eqb_spec d "left") as [-> | _]; [elim Hd; now exists Left |].
  destruct (String.eqb_spec d "right") as [-> | _]; [elim Hd; now exists Right |].
  reflexivity.
Qed.

Lemma getitem_ok_token {V : Type} (top bottom left right : V) (d : string) (v : V) :
  getitem [ ("top"%string, top); ("bottom"%string, bottom);
            ("left"%string, left); ("right"%string, right) ] d = Ok v ->
  is_token d.
Proof.
  simpl.
  destruct (String.eqb_spec d "top") as [-> | _]; [now exists Top |].
  destruct (String.eqb_spec d "bottom") as [-> | _]; [now exists Bottom |].
  destruct (String.eqb_spec d "left") as [-> | _]; [now exists Left |].
  destruct (String.eqb_spec d "right") as [-> | _]; [now exists Right |].
  discriminate.
Qed.

Lemma offset_dict_token (n : Node) (w h : Q) (t : Token) :
  width n = Ok w -> height n = Ok h ->
  (offset_dict <- _offset_dict n ;; getitem offset_dict (token_name t))
  = Ok (dict_offset w h t).
Proof.
  intros Hw Hh. rewrite (offset_dict_extent n w h Hw Hh). cbv [bind].
  rewrite getitem_token. destruct t; reflexivity.
Qed.

(** ** [split] *)

Lemma split_not_nil (sep : ascii) (s : string) : split sep s <> [].
Proof.
  destruct s as [| c s]; simpl; [discriminate |].
  destruct (Ascii.eqb c sep); [discriminate |].
  destruct (split sep s); discriminate.
Qed.

Lemma join_split (sep : ascii) (s : string) : join sep (split sep s) = s.
Proof.
  induction s as [| c s IH]; simpl; [reflexivity |].
  destruct (Ascii.eqb_spec c sep) as [-> | Hc].
  - pose proof (split_not_nil sep s) as Hne.
    destruct (split sep s) as [| p ps]; [contradiction |].
    simpl in *. now rewrite IH.
  - pose proof (split_not_nil sep s) as Hne.
    destruct (split sep s) as [| p ps]; [contradiction |].
    destruct ps as [| p' ps]; simpl in *; now rewrite <- IH.
Qed.

Lemma split_two (s d1 d2 : string) :
  split "_" s = [d1; d2] -> s = compound d1 d2.
Proof.
  intros H. rewrite <- (join_split "_" s), H. reflexivity.
Qed.

Lemma split_compound (t1 t2 : Token) :
  split "_" (compound (token_name t1) (token_name t2))
  = [token_name t1; token_name t2].
Proof. destruct t1, t2; reflexivity. Qed.

(** ** Single tokens: [pin] with a string *)

Section PinProperties.

Variable Theta : Type.
Variable intersection : list vec -> Theta -> vec -> result vec.

Lemma pin_token_plain (n : Node) (w h : Q) (t : Token) :
  width n = Ok w -> height n = Ok h ->
  pin intersection n (DStr (token_name t)) None
  = Ok (mkPin (vadd (dict_offset w h t) (position n))).
Proof.
  intros Hw Hh. unfold pin.
  rewrite (offset_dict_extent n w h Hw Hh). cbv [bind].
  rewrite getitem_token. destruct t; reflexivity.
Qed.

Lemma pin_token_aligned (n : Node) (w h : Q) (t : Token) (a : EdgeNode) :
  width n = Ok w -> height n = Ok h ->
  pin intersection n (DStr (token_name t)) (Some a)
  = Ok (mkPin
          (let loc := vadd (dict_offset w h t) (position n) in
           match t with
           | Top | Bottom => (fst (position_of a), snd loc)
           | Left | Right => (fst loc, snd (position_of a))
           end)).
Proof.
  intros Hw Hh. unfold pin.
  rewrite (offset_dict_extent n w h Hw Hh). cbv [bind].
  rewrite getitem_token. destruct t; reflexivity.
Qed.

(** C6.  For every shape, [pin] with one of the four tokens and no
    alignment returns the centroid moved by the token's offset: up or down
    by half the height for top and bottom, left or right by half the width
    for left and right.  For a rectangle the top and the bottom pin differ
    in y by the rectangle's height and both have the centroid's x. *)
Theorem pin_token_offset (n : Node) :
  is_shape n = true ->
  exists w h,
    width n = Ok w /\ height n = Ok h /\
    (forall t, exists p,
        pin intersection n (DStr (token_name t)) None = Ok p /\
        pin_position p =v= vadd (position n) (offset w h t)) /\
    (forall xy rw rh, obj n = Rectangle xy rw rh ->
       exists pt pb,
         pin intersection n (DStr "top") None = Ok pt /\
         pin intersection n (DStr "bottom") None = Ok pb /\
         snd (pin_position pt) - snd (pin_position pb) == rh /\
         fst (pin_position pt) == fst (position n) /\
         fst (pin_position pb) == fst (position n)).
Proof.
  intros Hs. destruct (is_shape_extent n Hs) as (w & h & Hw & Hh).
  exists w, h. repeat split; trivial.
  - intros t. eexists. split; [apply (pin_token_plain n w h t Hw Hh) |].
    destruct t; split; simpl; field.
  - intros xy rw rh Hobj.
    assert (h = rh) as ->.
    { unfold height in Hh. rewrite Hobj in Hh. congruence. }
    exists (mkPin (vadd (dict_offset w rh Top) (position n))),
           (mkPin (vadd (dict_offset w rh Bottom) (position n))).
    split; [apply (pin_token_plain n w rh Top Hw Hh) |].
    split; [apply (pin_token_plain n w rh Bottom Hw Hh) |].
    simpl. repeat split; field.
Qed.

(** C5.  For every shape, token and alignment target with a position: the
    left and the right pin take their y from the target and keep the x of
    the pin without alignment; the top and the bottom pin take their x from
    the target and keep the y of the pin without alignment. *)
Theorem pin_align_axis (n : Node) (t : Token) (target : EdgeNode) :
  is_shape n = true -> has_position target = true ->
  exists p q,
    pin intersection n (DStr (token_name t)) (Some target) = Ok p /\
    pin intersection n (DStr (token_name t)) None = Ok q /\
    match t with
    | Left | Right =>
        snd (pin_position p) = snd (position_of target) /\
        fst (pin_position p) = fst (pin_position q)
    | Top | Bottom =>
        fst (pin_position p) = fst (position_of target) /\
        snd (pin_position p) = snd (pin_position q)
    end.
Proof.
  intros Hs _. destruct (is_shape_extent n Hs) as (w & h & Hw & Hh).
  eexists. eexists.
  split; [apply (pin_token_aligned n w h t target Hw Hh) |].
  split; [apply (pin_token_plain n w h t Hw Hh) |].
  destruct t; split; reflexivity.
Qed.

(** C8.  [pin] with a string that is not one of the four tokens raises,
    with or without an alignment target, and [__getattr__] raises
    [AttributeError] for every name that is not two tokens joined by an
    underscore; neither returns a pin. *)
Theorem invalid_direction_raises (n : Node) :
  (forall d align, ~ is_token d ->
     exists e, pin intersection n (DStr d) align = Raise e) /\
  (forall name,
     ~ (exists t1 t2, name = compound (token_name t1) (token_name t2)) ->
     __getattr__ n name = Raise AttributeError).
Proof.
  split.
  - intros d align Hd. unfold pin, _offset_dict.
    destruct (width n) as [w | e]; [| now exists e].
    destruct (height n) as [h | e]; [| now exists e].
    cbv [bind]. rewrite (getitem_other _ _ _ _ d Hd). eauto.
  - intros name Hname. unfold __getattr__.
    destruct (split "_" name) as [| d1 [| d2 [| d3 ds]]] eqn:Hsplit;
      try reflexivity.
    unfold _offset_dict.
    destruct (width n) as [w | e]; [| reflexivity].
    destruct (height n) as [h | e]; [| reflexivity].
    cbv [bind].
    destruct (getitem _ d1) as [o1 | e] eqn:H1; [| reflexivity].
    destruct (getitem _ d2) as [o2 | e] eqn:H2; [| reflexivity].
    exfalso. apply Hname.
    destruct (getitem_ok_token _ _ _ _ _ _ H1) as [t1 ->].
    destruct (getitem_ok_token _ _ _ _ _ _ H2) as [t2 ->].
    exists t1, t2. now apply split_two.
Qed.

End PinProperties.

(** ** Compound tokens: [__getattr__] *)

Lemma getattr_compound (n : Node) (w h : Q) (t1 t2 : Token) :
  width n = Ok w -> height n = Ok h ->
  __getattr__ n (compound (token_name t1) (token_name t2))
  = Ok (mkPin (vadd (vadd (dict_offset w h t1)
                          (vscale (dict_offset w h t2) 0.8))
                    (position n))).
Proof.
  intros Hw Hh. unfold __getattr__.
  rewrite split_compound, (offset_dict_extent n w h Hw Hh). cbv [bind].
  rewrite !getitem_token. destruct t1, t2; reflexivity.
Qed.

(** C4.  For every shape and every pair of tokens [t1], [t2], the attribute
    [t1_t2] is a pin at the centroid plus the offset of [t1] plus 0.8 times
    the offset of [t2].  [__getattr__] takes the node and the name only:
    there is no alignment target it could apply. *)
Theorem getattr_compound_offset (n : Node) (t1 t2 : Token) :
  is_shape n = true ->
  exists w h p,
    width n = Ok w /\ height n = Ok h /\
    __getattr__ n (compound (token_name t1) (token_name t2)) = Ok p /\
    pin_position p
    =v= vadd (vadd (position n) (offset w h t1)) (scalev 0.8 (offset w h t2)).
Proof.
  intros Hs. destruct (is_shape_extent n Hs) as (w & h & Hw & Hh).
  exists w, h. eexists. repeat split; trivial.
  - apply (getattr_compound n w h t1 t2 Hw Hh).
  - destruct t1, t2; simpl; field.
  - destruct t1, t2; simpl; field.
Qed.

(** C9.  For a shape whose width differs from its height, the attributes
    [top_left] and [left_top] are different points. *)
Theorem getattr_order_matters (n : Node) (w h : Q) :
  width n = Ok w -> height n = Ok h -> ~ w == h ->
  exists p q,
    __getattr__ n "top_left" = Ok p /\
    __getattr__ n "left_top" = Ok q /\
    ~ pin_position p =v= pin_position q.
Proof.
  intros Hw Hh Hne. eexists. eexists.
  split; [apply (getattr_compound n w h Top Left Hw Hh) |].
  split; [apply (getattr_compound n w h Left Top Hw Hh) |].
  intros [Hx Hy]. simpl in Hx, Hy. apply Hne.
  rewrite !Qhalf in Hx, Hy. lra.
Qed.

(** ** Mean and maximum *)

Lemma fold_left_Qplus (l : list Q) (a : Q) :
  fold_left Qplus l a == a + fold_right Qplus 0 l.
Proof.
  revert a. induction l as [| x l IH]; intros a; simpl.
  - ring.
  - rewrite IH. ring.
Qed.

Lemma length_not_zero {A : Type} (x : A) (l : list A) :
  ~ inject_Z (Z.of_nat (List.length (x :: l))) == 0.
Proof.
  unfold Qeq, inject_Z. cbn [Qnum Qden List.length]. lia.
Qed.

Lemma mean_is_mean (x : Q) (l : list Q) : is_mean (x :: l) (mean (x :: l)).
Proof.
  unfold is_mean, mean, sum. rewrite fold_left_Qplus.
  pose proof (length_not_zero x l) as Hlen.
  field. exact Hlen.
Qed.

Lemma fold_left_Qmax (l : list Q) (x : Q) :
  x <= fold_left Qmax l x /\
  (forall y, In y l -> y <= fold_left Qmax l x) /\
  (fold_left Qmax l x == x \/ exists y, In y l /\ fold_left Qmax l x == y).
Proof.
  revert x. induction l as [| a l IH]; intros x; simpl.
  - split; [apply Qle_refl |]. split; [intros y [] |]. left. reflexivity.
  - destruct (IH (Qmax x a)) as (Hge & Hall & Hin).
    split; [| split].
    + eapply Qle_trans; [apply Q.le_max_l | exact Hge].
    + intros y [<- | Hy].
      * eapply Qle_trans; [apply Q.le_max_r | exact Hge].
      * now apply Hall.
    + destruct Hin as [Heq | (y & Hy & Heq)].
      * destruct (Q.max_spec x a) as [[_ Hm] | [_ Hm]];
          pose proof (Qeq_trans _ _ _ Heq Hm) as Heq'.
        -- right. exists a. split; [now left | exact Heq'].
        -- now left.
      * right. exists y. split; [now right | exact Heq].
Qed.

Lemma amax_abs_dev (x : Q) (xs : list Q) (c : Q) :
  exists m,
    amax (map (fun y => Qabs (y - c)) (x :: xs)) = Ok m /\
    is_max_abs_dev (x :: xs) c m.
Proof.
  simpl amax. eexists. split; [reflexivity |].
  destruct (fold_left_Qmax (map (fun y => Qabs (y - c)) xs) (Qabs (x - c)))
    as (Hge & Hall & Hin).
  split.
  - destruct Hin as [Heq | (y & Hy & Heq)].
    + exists x. split; [now left | exact Heq].
    + apply in_map_iff in Hy. destruct Hy as (x' & <- & Hx').
      exists x'. split; [now right | exact Heq].
  - intros y [<- | Hy]; [exact Hge |].
    apply Hall. apply in_map_iff. now exists y.
Qed.

(** C7.  For a polygon whose path is a closed ring [v0 :: rest ++ [v0]],
    the centroid is the arithmetic mean of the vertices [v0 :: rest] (the
    closing duplicate left out), and the width and the height are twice the
    largest distance of a vertex's x, respectively y, from the centroid's. *)
Theorem polygon_centroid_extent (style : string) (v0 : vec) (rest : list vec) :
  let vs := v0 :: rest in
  let n := mkNode style Polygon (vs ++ [v0]) in
  is_mean (map fst vs) (fst (position n)) /\
  is_mean (map snd vs) (snd (position n)) /\
  exists w h mx my,
    width n = Ok w /\ height n = Ok h /\
    is_max_abs_dev (map fst vs) (fst (position n)) mx /\ w == 2 * mx /\
    is_max_abs_dev (map snd vs) (snd (position n)) my /\ h == 2 * my.
Proof.
  intros vs n. subst n.
  unfold position, width, height, mean_axis0. cbn [obj path].
  replace (removelast (vs ++ [v0])) with vs by (symmetry; apply removelast_last).
  subst vs. cbn [map fst snd].
  split; [apply mean_is_mean |]. split; [apply mean_is_mean |].
  destruct (amax_abs_dev (fst v0) (map fst rest)
              (mean (fst v0 :: map fst rest))) as (mx & Hmx & Hdx).
  destruct (amax_abs_dev (snd v0) (map snd rest)
              (mean (snd v0 :: map snd rest))) as (my & Hmy & Hdy).
  exists (mx * 2), (my * 2), mx, my.
  cbn [map] in Hmx, Hmy. rewrite Hmx, Hmy. cbv [bind].
  repeat split; try apply Hdx; try apply Hdy; ring.
Qed.

(** ** [argmax] *)

Lemma argmax_from_spec (l pre : list Q) (best_i : nat) (best : Q) :
  nth_error pre best_i = Some best ->
  (forall y, In y pre -> y <= best) ->
  (forall j y, (j < best_i)%nat -> nth_error pre j = Some y -> y < best) ->
  exists m,
    nth_error (pre ++ l) (argmax_from best_i best (List.length pre) l) = Some m /\
    (forall y, In y (pre ++ l) -> y <= m) /\
    (forall j y, (j < argmax_from best_i best (List.length pre) l)%nat ->
                 nth_error (pre ++ l) j = Some y -> y < m).
Proof.
  revert pre best_i best.
  induction l as [| x l IH]; intros pre best_i best Hnth Hle Hlt.
  - simpl. rewrite app_nil_r. eauto.
  - assert (Hbound : (best_i < List.length pre)%nat).
    { apply nth_error_Some. congruence. }
    replace (pre ++ x :: l) with ((pre ++ [x]) ++ l)
      by (rewrite <- app_assoc; reflexivity).
    assert (Hlen : List.length (pre ++ [x]) = S (List.length pre)).
    { rewrite length_app. simpl. lia. }
    simpl. destruct (Qlt_le_dec best x) as [Hbx | Hxb].
    + specialize (IH (pre ++ [x]) (List.length pre) x).
      rewrite Hlen in IH. apply IH.
      * rewrite nth_error_app2 by lia. now rewrite Nat.sub_diag.
      * intros y Hy. apply in_app_or in Hy. destruct Hy as [Hy | [<- | []]].
        -- apply Qlt_le_weak. eapply Qle_lt_trans; [apply Hle, Hy | exact Hbx].
        -- apply Qle_refl.
      * intros j y Hj Hy. rewrite nth_error_app1 in Hy by lia.
        apply nth_error_In in Hy.
        eapply Qle_lt_trans; [apply Hle, Hy | exact Hbx].
    + specialize (IH (pre ++ [x]) best_i best).
      rewrite Hlen in IH. apply IH.
      * rewrite nth_error_app1 by lia. exact Hnth.
      * intros y Hy. apply in_app_or in Hy. destruct Hy as [Hy | [<- | []]].
        -- now apply Hle.
        -- exact Hxb.
      * intros j y Hj Hy. rewrite nth_error_app1 in Hy by lia.
        now apply (Hlt j).
Qed.

Lemma argmax_spec (x : Q) (l : list Q) :
  exists i m,
    argmax (x :: l) = Ok i /\
    nth_error (x :: l) i = Some m /\
    (forall y, In y (x :: l) -> y <= m) /\
    (forall j y, (j < i)%nat -> nth_error (x :: l) j = Some y -> y < m).
Proof.
  destruct (argmax_from_spec l [x] 0%nat x) as (m & Hm & Hle & Hlt).
  - reflexivity.
  - intros y [<- | []]. apply Qle_refl.
  - intros j y Hj. lia.
  - exists (argmax_from 0 x 1 l), m. simpl in *. auto.
Qed.

Lemma argmax_from_bounded (l : list Q) (best_i : nat) (best : Q) (i : nat) :
  (forall y, In y l -> y <= best) -> argmax_from best_i best i l = best_i.
Proof.
  revert i. induction l as [| x l IH]; intros i Hle; simpl; [reflexivity |].
  destruct (Qlt_le_dec best x) as [Hbx | _].
  - exfalso. apply (Qlt_not_le _ _ Hbx). apply Hle. now left.
  - apply IH. intros y Hy. apply Hle. now right.
Qed.

(** ** [get_connection_point] on a boundary path *)

Lemma connection_point_by_path (n : Node) (d : vec) :
  by_path n -> path n <> [] ->
  get_connection_point n d
  = (i <- argmax (map (score (position n) d) (path_candidates (path n))) ;;
     getrow (path_candidates (path n)) i).
Proof.
  intros Hn Hp. unfold get_connection_point. rewrite Hn.
  destruct (path n) as [| v vs] eqn:Hv; [contradiction |].
  rewrite map_map. reflexivity.
Qed.

Lemma path_candidates_ring (v0 : vec) (rest : list vec) :
  path_candidates ((v0 :: rest) ++ [v0]) = candidate_set (v0 :: rest).
Proof.
  unfold path_candidates, candidate_set, ring_edges.
  rewrite removelast_last. reflexivity.
Qed.

(** ** The zero direction *)

Lemma score_zero (center c : vec) : score center (0, 0) c == 0.
Proof.
  unfold score, perpendicular, dot. cbn [fst snd].
  setoid_replace (fst (vsub c center) * - 0 + snd (vsub c center) * 0)
    with 0 by ring.
  simpl Qabs. ring.
Qed.

(** C1, as the code has it.  With the direction (0,0),
    [get_connection_point] returns a point and raises nothing: the center
    for a circle; for a node resolved through a boundary path of at least
    two rows, the first row of the path. *)
Theorem zero_direction_point :
  (forall center radius verts,
     exists p,
       get_connection_point (circle_node center radius verts) (0, 0) = Ok p /\
       p =v= center) /\
  (forall n v0 v1 rest,
     by_path n -> path n = v0 :: v1 :: rest ->
     get_connection_point n (0, 0) = Ok v0).
Proof.
  split.
  - intros center radius verts. eexists. split; [reflexivity |].
    split; simpl; ring.
  - intros n v0 v1 rest Hn Hpath.
    rewrite (connection_point_by_path n _ Hn)
      by (rewrite Hpath; discriminate).
    rewrite Hpath. unfold path_candidates.
    change (removelast (v0 :: v1 :: rest)) with (v0 :: removelast (v1 :: rest)).
    cbn [app map argmax bind].
    rewrite argmax_from_bounded; [reflexivity |].
    intros y Hy. apply in_map_iff in Hy. destruct Hy as (c & <- & _).
    rewrite !score_zero. apply Qle_refl.
Qed.

(** C1 fails: on the unit square and on the unit circle the direction (0,0)
    gives a point, no error. *)
Lemma zero_direction_no_error :
  get_connection_point unit_square (0, 0) = Ok (0, 0) /\
  (forall e, get_connection_point unit_square (0, 0) <> Raise e) /\
  (exists p, get_connection_point unit_circle (0, 0) = Ok p /\ p =v= (0, 0)).
Proof.
  split; [vm_compute; reflexivity |].
  split; [intros e; vm_compute; discriminate |].
  eexists. split; [reflexivity |]. split; vm_compute; reflexivity.
Qed.

(** ** Circles *)

(** C2, as the code has it.  For a circle and every direction [v],
    [get_connection_point] returns center + radius * v, with [v] as it is
    given: the square of the distance of the result from the center is
    radius^2 * |v|^2, which is radius^2 for [v] of length one. *)
Theorem circle_connection_point
    (center : vec) (radius : Q) (verts : list vec) (v : vec) :
  exists p,
    get_connection_point (circle_node center radius verts) v = Ok p /\
    p =v= vadd center (scalev radius v) /\
    dist2 p center == radius * radius * dot v v /\
    (dot v v == 1 -> dist2 p center == radius * radius).
Proof.
  eexists. split; [reflexivity |]. split; [apply veq_refl |].
  assert (Hd : dist2 (vadd center (scalev radius v)) center
               == radius * radius * dot v v).
  { unfold dist2, dot, vsub, vadd, scalev. cbn [fst snd]. ring. }
  split; [exact Hd |].
  intros Hv. rewrite Hd, Hv. ring.
Qed.

(** C2 fails: the direction (2,0) is twice the unit vector (1,0); on the
    unit circle it resolves to (2,0), at distance 2 from the center, not to
    center + radius * (1,0). *)
Lemma circle_direction_not_normalized :
  (2, 0) =v= scalev 2 (1, 0) /\ dot (1, 0) (1, 0) == 1 /\
  exists p,
    get_connection_point unit_circle (2, 0) = Ok p /\
    p =v= (2, 0) /\
    ~ p =v= vadd (0, 0) (scalev 1 (1, 0)) /\
    ~ dist2 p (0, 0) == 1 * 1.
Proof.
  split; [split; vm_compute; reflexivity |].
  split; [vm_compute; reflexivity |].
  eexists. split; [reflexivity |].
  split; [split; vm_compute; reflexivity |].
  split.
  - intros [H _]. vm_compute in H. discriminate.
  - intros H. vm_compute in H. discriminate.
Qed.

(** ** The theorems at concrete nodes *)

Lemma not_token_up : ~ is_token "up".
Proof. intros [t Ht]. destruct t; discriminate Ht. Qed.

Lemma not_compound_top_up :
  ~ (exists t1 t2, "top_up"%string = compound (token_name t1) (token_name t2)).
Proof. intros (t1 & t2 & H). destruct t1, t2; discriminate H. Qed.

Lemma pin_token_offset_witness :
  is_shape rect_node = true /\
  exists w h,
    width rect_node = Ok w /\ height rect_node = Ok h /\
    (forall t, exists p,
        pin no_intersection rect_node (DStr (token_name t)) None = Ok p /\
        pin_position p =v= vadd (position rect_node) (offset w h t)) /\
    (forall xy rw rh, obj rect_node = Rectangle xy rw rh ->
       exists pt pb,
         pin no_intersection rect_node (DStr "top") None = Ok pt /\
         pin no_intersection rect_node (DStr "bottom") None = Ok pb /\
         snd (pin_position pt) - snd (pin_position pb) == rh /\
         fst (pin_position pt) == fst (position rect_node) /\
         fst (pin_position pb) == fst (position rect_node)).
Proof.
  split; [reflexivity |].
  apply (pin_token_offset unit no_intersection rect_node). reflexivity.
Defined.

Lemma pin_align_axis_witness :
  is_shape rect_node = true /\
  has_position (APin (mkPin (9, 7))) = true /\
  exists p q,
    pin no_intersection rect_node (DStr "right") (Some (APin (mkPin (9, 7)))) = Ok p /\
    pin no_intersection rect_node (DStr "right") None = Ok q /\
    snd (pin_position p) = 7 /\
    fst (pin_position p) = fst (pin_position q).
Proof.
  split; [reflexivity |]. split; [reflexivity |].
  apply (pin_align_axis unit no_intersection rect_node Right
           (APin (mkPin (9, 7)))); reflexivity.
Defined.

Lemma invalid_direction_raises_witness :
  (exists e, pin no_intersection unit_square (DStr "up") None = Raise e) /\
  __getattr__ unit_square "top_up" = Raise AttributeError.
Proof.
  split.
  - apply (proj1 (invalid_direction_raises unit no_intersection unit_square)).
    exact not_token_up.
  - apply (proj2 (invalid_direction_raises unit no_intersection unit_square)).
    exact not_compound_top_up.
Defined.

Lemma getattr_compound_offset_witness :
  is_shape unit_square = true /\
  exists w h p,
    width unit_square = Ok w /\ height unit_square = Ok h /\
    __getattr__ unit_square "top_left" = Ok p /\
    pin_position p
    =v= vadd (vadd (position unit_square) (offset w h Top))
             (scalev 0.8 (offset w h Left)).
Proof.
  split; [reflexivity |].
  apply (getattr_compound_offset unit_square Top Left). reflexivity.
Defined.

Lemma getattr_order_matters_witness :
  width rect_node = Ok 4 /\ height rect_node = Ok 2 /\ ~ 4 == 2 /\
  exists p q,
    __getattr__ rect_node "top_left" = Ok p /\
    __getattr__ rect_node "left_top" = Ok q /\
    ~ pin_position p =v= pin_position q.
Proof.
  assert (Hne : ~ 4 == 2) by (unfold Qeq; simpl; lia).
  split; [reflexivity |]. split; [reflexivity |]. split; [exact Hne |].
  apply (getattr_order_matters rect_node 4 2); [reflexivity | reflexivity |].
  exact Hne.
Defined.

Lemma zero_direction_point_witness :
  by_path unit_square /\
  path unit_square = (0, 0) :: (1, 0) :: [(1, 1); (0, 1); (0, 0)] /\
  get_connection_point unit_square (0, 0) = Ok (0, 0).
Proof.
  split; [reflexivity |]. split; [reflexivity |].
  apply (proj2 zero_direction_point unit_square (0, 0) (1, 0)
           [(1, 1); (0, 1); (0, 0)]); reflexivity.
Defined.

Lemma circle_connection_point_witness :
  dot (1, 0) (1, 0) == 1 /\
  exists p,
    get_connection_point unit_circle (1, 0) = Ok p /\
    dist2 p (0, 0) == 1 * 1.
Proof.
  assert (Hunit : dot (1, 0) (1, 0) == 1) by reflexivity.
  split; [exact Hunit |].
  destruct (circle_connection_point (0, 0) 1
              [(1, 0); (0, 1); (-1, 0); (0, -1); (1, 0)] (1, 0))
    as (p & Hp & _ & _ & Hdist).
  exists p. split; [exact Hp | exact (Hdist Hunit)].
Defined.

(** * Further properties *)

(** ** When a node has a width and a height *)

Lemma removelast_nil_length {A : Type} (l : list A) :
  removelast l = [] <-> (List.length l <= 1)%nat.
Proof.
  destruct l as [| a [| b l]]; simpl; split; intros H;
    try reflexivity; try lia; try discriminate.
Qed.

Lemma width_ok_shape (n : Node) (w : Q) : width n = Ok w -> is_shape n = true.
Proof.
  unfold width, is_shape. destruct (obj n); try reflexivity; try discriminate.
  destruct (path n) as [| p ps]; [discriminate |].
  destruct (removelast (p :: ps)); [discriminate | reflexivity].
Qed.

Lemma height_ok_shape (n : Node) (h : Q) : height n = Ok h -> is_shape n = true.
Proof.
  unfold height, is_shape. destruct (obj n); try reflexivity; try discriminate.
  destruct (path n) as [| p ps]; [discriminate |].
  destruct (removelast (p :: ps)); [discriminate | reflexivity].
Qed.

Lemma not_shape_extent (n : Node) :
  is_shape n = false ->
  (obj n = OtherPatch /\
   width n = Raise RuntimeError /\ height n = Raise RuntimeError) \/
  (obj n = Polygon /\ path n = [] /\
   width n = Raise TypeError /\ height n = Raise TypeError) \/
  (obj n = Polygon /\ List.length (path n) = 1%nat /\
   width n = Raise ValueError /\ height n = Raise ValueError).
Proof.
  unfold is_shape, width, height.
  destruct (obj n); try discriminate; intros Hs.
  - right. destruct (path n) as [| p [| q ps]]; [left; auto | right; auto |].
    simpl in Hs. discriminate Hs.
  - left. auto.
Qed.

(** X1.  [width] and [height] return a number exactly for a circle, a
    rectangle and a polygon whose path has at least two rows.  For any other
    patch both raise [RuntimeError] (the bare [raise]).  For a polygon whose
    path is the empty list, as [get_verts] returns it for fewer than three
    vertices, both raise [TypeError] (the list is indexed like an array);
    for a polygon whose path is an array of one row both raise [ValueError]
    (the maximum of an empty array). *)
Theorem extent_defined_iff (n : Node) :
  (is_shape n = true <-> exists w, width n = Ok w) /\
  (is_shape n = true <-> exists h, height n = Ok h) /\
  (is_shape n = false ->
   (obj n = OtherPatch /\
    width n = Raise RuntimeError /\ height n = Raise RuntimeError) \/
   (obj n = Polygon /\ path n = [] /\
    width n = Raise TypeError /\ height n = Raise TypeError) \/
   (obj n = Polygon /\ List.length (path n) = 1%nat /\
    width n = Raise ValueError /\ height n = Raise ValueError)).
Proof.
  split; [| split].
  - split.
    + intros Hs. destruct (is_shape_extent n Hs) as (w & _ & Hw & _). eauto.
    + intros [w Hw]. exact (width_ok_shape n w Hw).
  - split.
    + intros Hs. destruct (is_shape_extent n Hs) as (_ & h & _ & Hh). eauto.
    + intros [h Hh]. exact (height_ok_shape n h Hh).
  - apply not_shape_extent.
Qed.

(** X2.  The width and the height of a polygon are never negative. *)
Theorem polygon_extent_nonneg (n : Node) (w h : Q) :
  obj n = Polygon -> width n = Ok w -> height n = Ok h -> 0 <= w /\ 0 <= h.
Proof.
  unfold width, height. intros -> Hw Hh.
  destruct (path n) as [| p ps]; [discriminate |].
  destruct (removelast (p :: ps)) as [| v vs]; [discriminate |].
  cbn [map amax bind] in Hw, Hh.
  injection Hw as <-. injection Hh as <-.
  split.
  - destruct (fold_left_Qmax
                (map (fun x => Qabs (x - mean (fst v :: map fst vs))) (map fst vs))
                (Qabs (fst v - mean (fst v :: map fst vs)))) as (Hge & _).
    pose proof (Qabs_nonneg (fst v - mean (fst v :: map fst vs))) as H0.
    apply Qmult_le_0_compat; [eapply Qle_trans; eassumption | discriminate].
  - destruct (fold_left_Qmax
                (map (fun y => Qabs (y - mean (snd v :: map snd vs))) (map snd vs))
                (Qabs (snd v - mean (snd v :: map snd vs)))) as (Hge & _).
    pose proof (Qabs_nonneg (snd v - mean (snd v :: map snd vs))) as H0.
    apply Qmult_le_0_compat; [eapply Qle_trans; eassumption | discriminate].
Qed.

(** ** When the symbolic resolvers succeed *)

(** X3.  [__getattr__] returns a pin exactly when the node has a width and a
    height and the name is two tokens joined by one underscore; in every
    other case it raises, and what it raises is [AttributeError], whatever
    went wrong inside. *)
Theorem getattr_ok_iff (n : Node) (name : string) :
  ((exists p, __getattr__ n name = Ok p) <->
   is_shape n = true /\
   exists t1 t2, name = compound (token_name t1) (token_name t2)) /\
  (forall e, __getattr__ n name = Raise e -> e = AttributeError).
Proof.
  split; [split |].
  - intros [p Hp]. unfold __getattr__ in Hp.
    destruct (split "_" name) as [| d1 [| d2 [| d3 ds]]] eqn:Hsplit;
      try discriminate.
    unfold _offset_dict in Hp.
    destruct (width n) as [w | e] eqn:Hw; [| discriminate].
    destruct (height n) as [h | e] eqn:Hh; [| discriminate].
    cbv [bind] in Hp.
    destruct (getitem _ d1) as [o1 | e] eqn:H1; [| discriminate].
    destruct (getitem _ d2) as [o2 | e] eqn:H2; [| discriminate].
    split; [exact (width_ok_shape n w Hw) |].
    destruct (getitem_ok_token _ _ _ _ _ _ H1) as [t1 ->].
    destruct (getitem_ok_token _ _ _ _ _ _ H2) as [t2 ->].
    exists t1, t2. now apply split_two.
  - intros (Hs & t1 & t2 & ->).
    destruct (is_shape_extent n Hs) as (w & h & Hw & Hh).
    rewrite (getattr_compound n w h t1 t2 Hw Hh). eauto.
  - intros e. unfold __getattr__.
    match goal with |- context [match ?b with Ok _ => _ | Raise _ => _ end] =>
      destruct b end; [discriminate |].
    intros H. now injection H as <-.
Qed.

Section PinFurther.

Variable Theta : Type.
Variable intersection : list vec -> Theta -> vec -> result vec.


End PinFurther.

(** ** Compound pins and single pins *)

Lemma Qabs_le_iff (x y : Q) : Qabs x <= y <-> - y <= x /\ x <= y.
Proof. apply Qabs_Qle_condition. Qed.

Section PinRelations.

Variable Theta : Type.
Variable intersection : list vec -> Theta -> vec -> result vec.

(** X5.  For a shape of non-negative width and height and two tokens of
    different axes, the compound pin [t1_t2] lies in the box of that width
    and height around the centroid, on the side that the first token names:
    it has the y of the single pin [t1] when [t1] is top or bottom, and the
    x of the single pin [t1] when [t1] is left or right. *)
Theorem compound_pin_on_first_side (n : Node) (w h : Q) (t1 t2 : Token) :
  width n = Ok w -> height n = Ok h -> 0 <= w -> 0 <= h ->
  is_vertical t1 <> is_vertical t2 ->
  exists p q,
    __getattr__ n (compound (token_name t1) (token_name t2)) = Ok p /\
    pin intersection n (DStr (token_name t1)) None = Ok q /\
    in_box (position n) w h (pin_position p) /\
    (if is_vertical t1
     then snd (pin_position p) == snd (pin_position q)
     else fst (pin_position p) == fst (pin_position q)).
Proof.
  intros Hw Hh Hw0 Hh0 Haxes. eexists. eexists.
  split; [apply (getattr_compound n w h t1 t2 Hw Hh) |].
  split; [apply (pin_token_plain Theta intersection n w h t1 Hw Hh) |].
  unfold in_box.
  destruct t1, t2; try (exfalso; apply Haxes; reflexivity);
    cbn [pin_position dict_offset vadd vscale fst snd is_vertical];
    rewrite !Qabs_le_iff, !Qhalf; repeat split; lra.
Qed.

(** X6.  Aligning a pin of a shape to the shape itself, or to the pin at the
    shape's center, does not move it. *)
Theorem pin_align_self (n : Node) (t : Token) :
  is_shape n = true ->
  exists p p' q,
    pin intersection n (DStr (token_name t)) (Some (ANode n)) = Ok p /\
    pin intersection n (DStr (token_name t)) (Some (APin (center n))) = Ok p' /\
    pin intersection n (DStr (token_name t)) None = Ok q /\
    pin_position p =v= pin_position q /\
    pin_position p' =v= pin_position q.
Proof.
  intros Hs. destruct (is_shape_extent n Hs) as (w & h & Hw & Hh).
  eexists. eexists. eexists.
  split; [apply (pin_token_aligned Theta intersection n w h t _ Hw Hh) |].
  split; [apply (pin_token_aligned Theta intersection n w h t _ Hw Hh) |].
  split; [apply (pin_token_plain Theta intersection n w h t Hw Hh) |].
  destruct t; repeat split; simpl; ring.
Qed.

End PinRelations.

(** ** Labels: [text] *)

Section TextProperties.

Variable annotate_setting : dict Q.
Variable Theta : Type.
Variable intersection : list vec -> Theta -> vec -> result vec.

Lemma text_token (self : EdgeNode) (w h : Q) (t : Token)
    (s color : string) (fs off : Q) :
  width_of self = Ok w -> height_of self = Ok h ->
  text annotate_setting self s (AtName (token_name t)) (Some fs) color (Some off)
  = Ok (let xy :=
          vadd (position_of self)
               match t with
               | Top => (0, h * 0.5 + off)
               | Bottom => (0, - h * 0.5 - off)
               | Left => (- w * 0.5 - off, 0)
               | Right => (w * 0.5 + off, 0)
               end in
        mkTextCall (fst xy) (snd xy) s (fst (anchor_of t)) (snd (anchor_of t))
                   fs color).
Proof.
  intros Hw Hh. unfold text. cbv [bind]. rewrite Hw, Hh.
  destruct t; reflexivity.
Qed.

(** X7.  A label placed at a token of a shape is anchored [text_offset]
    beyond the pin of the same token, away from the centroid, and it is
    aligned on the side that faces the shape: a label on the right is
    left-aligned, one on the left right-aligned, one on top bottom-aligned,
    one at the bottom top-aligned; the other alignment stays centered.  The
    string, the font size and the color are passed on as given. *)
Theorem text_beyond_pin (n : Node) (t : Token) (s color : string) (fs off : Q) :
  is_shape n = true ->
  exists c q,
    text annotate_setting (ANode n) s (AtName (token_name t))
         (Some fs) color (Some off) = Ok c /\
    pin intersection n (DStr (token_name t)) None = Ok q /\
    (text_x c, text_y c)
    =v= vadd (pin_position q) (scalev off (unit_direction t)) /\
    (text_va c, text_ha c) = anchor_of t /\
    text_s c = s /\ text_fontsize c = fs /\ text_color c = color.
Proof.
  intros Hs. destruct (is_shape_extent n Hs) as (w & h & Hw & Hh).
  eexists. eexists.
  split; [apply (text_token (ANode n) w h t s color fs off Hw Hh) |].
  split; [apply (pin_token_plain Theta intersection n w h t Hw Hh) |].
  destruct t; repeat split; simpl; rewrite ?Qhalf; lra.
Qed.

(** X8.  An edge and a pin have no extent: a label at a token of an edge or
    of a pin is anchored exactly [text_offset] away from its position (for an
    edge the middle of its two ends), in the direction of the token. *)
Theorem text_zero_extent (e : Edge) (p : Pin) (t : Token)
    (s color : string) (fs off : Q) :
  (exists c,
     text annotate_setting (AEdge e) s (AtName (token_name t))
          (Some fs) color (Some off) = Ok c /\
     (text_x c, text_y c)
     =v= vadd (midpoint (start_xy e) (end_xy e)) (scalev off (unit_direction t)) /\
     (text_va c, text_ha c) = anchor_of t) /\
  (exists c,
     text annotate_setting (APin p) s (AtName (token_name t))
          (Some fs) color (Some off) = Ok c /\
     (text_x c, text_y c)
     =v= vadd (pin_position p) (scalev off (unit_direction t)) /\
     (text_va c, text_ha c) = anchor_of t).
Proof.
  split; eexists.
  - split; [apply (text_token (AEdge e) 0 0 t s color fs off); reflexivity |].
    destruct t; repeat split; simpl; lra.
  - split; [apply (text_token (APin p) 0 0 t s color fs off); reflexivity |].
    destruct t; repeat split; simpl; lra.
Qed.

(** X9.  [text] reads the width and the height before it looks at the name:
    with a name as position it raises on a node without extent, also for
    "center", and it raises [RuntimeError] on every name other than center,
    right, left, top and bottom; with a point as position it never reads the
    extent and places the label at that point, centered both ways. *)
Theorem text_position_cases (self : EdgeNode) (s color : string) (fs off : Q) :
  (forall name e, width_of self = Raise e ->
     text annotate_setting self s (AtName name) (Some fs) color (Some off)
     = Raise e) /\
  (forall name w h, width_of self = Ok w -> height_of self = Ok h ->
     ~ In name ["center"; "right"; "left"; "top"; "bottom"]%string ->
     text annotate_setting self s (AtName name) (Some fs) color (Some off)
     = Raise RuntimeError) /\
  (forall xy,
     text annotate_setting self s (AtPoint xy) (Some fs) color (Some off)
     = Ok (mkTextCall (fst xy) (snd xy) s "center" "center" fs color)).
Proof.
  split; [| split].
  - intros name e Hw. unfold text. cbv [bind]. now rewrite Hw.
  - intros name w h Hw Hh Hname. unfold text. cbv [bind]. rewrite Hw, Hh.
    simpl in Hname.
    destruct (String.eqb_spec name "center"); [subst; exfalso; tauto |].
    destruct (String.eqb_spec name "right"); [subst; exfalso; tauto |].
    destruct (String.eqb_spec name "left"); [subst; exfalso; tauto |].
    destruct (String.eqb_spec name "top"); [subst; exfalso; tauto |].
    destruct (String.eqb_spec name "bottom"); [subst; exfalso; tauto |].
    reflexivity.
  - intros xy. reflexivity.
Qed.

End TextProperties.

(** ** [get_connection_point] on any path *)

Lemma path_candidates_nil (p : list vec) :
  path_candidates p = [] <-> (List.length p <= 1)%nat.
Proof.
  unfold path_candidates. rewrite <- removelast_nil_length.
  destruct (removelast p) as [| v vs]; simpl; split; intros H;
    try reflexivity; discriminate.
Qed.

Lemma connection_point_argmax (n : Node) (d : vec) :
  by_path n -> path_candidates (path n) <> [] ->
  exists i c,
    get_connection_point n d = Ok c /\
    nth_error (path_candidates (path n)) i = Some c /\
    (forall c', In c' (path_candidates (path n)) ->
                score (position n) d c' <= score (position n) d c) /\
    (forall j c', (j < i)%nat ->
                  nth_error (path_candidates (path n)) j = Some c' ->
                  score (position n) d c' < score (position n) d c).
Proof.
  intros Hn Hne.
  assert (Hp : path n <> []) by (intros Hp; apply Hne; now rewrite Hp).
  rewrite (connection_point_by_path n d Hn Hp).
  set (cands := path_candidates (path n)) in *.
  set (sc := score (position n) d).
  destruct cands as [| c0 cs] eqn:Hc; [contradiction |].
  destruct (argmax_spec (sc c0) (map sc cs)) as (i & m & Hi & Hm & Hle & Hlt).
  change (sc c0 :: map sc cs) with (map sc (c0 :: cs)) in *.
  rewrite Hi. cbv [bind].
  rewrite nth_error_map in Hm.
  destruct (nth_error (c0 :: cs) i) as [c |] eqn:Hnth; [| discriminate].
  simpl in Hm. injection Hm as <-.
  exists i, c. unfold getrow. rewrite Hnth.
  repeat split; trivial.
  - intros c' Hc'. apply Hle. now apply in_map.
  - intros j c' Hj Hc'. apply (Hlt j); [exact Hj |].
    rewrite nth_error_map, Hc'. reflexivity.
Qed.

Lemma connection_point_unique_best (n : Node) (d : vec) (i : nat) (c : vec) :
  by_path n ->
  nth_error (path_candidates (path n)) i = Some c ->
  (forall j c', j <> i -> nth_error (path_candidates (path n)) j = Some c' ->
                score (position n) d c' < score (position n) d c) ->
  get_connection_point n d = Ok c.
Proof.
  intros Hn Hi Hbest.
  assert (Hne : path_candidates (path n) <> []).
  { intros H. rewrite H in Hi. destruct i; discriminate. }
  destruct (connection_point_argmax n d Hn Hne) as (k & c' & Hr & Hk & Hmax & _).
  rewrite Hr. destruct (Nat.eq_dec k i) as [-> | Hki]; [congruence |].
  exfalso. apply (Qlt_not_le _ _ (Hbest k c' Hki Hk)).
  apply Hmax. eapply nth_error_In; eassumption.
Qed.

(** ** Directions along the axes *)

Ltac split_Qabs :=
  repeat match goal with
         | |- context [Qabs ?e] =>
             pattern (Qabs e); apply Qabs_case; cbv beta; intros
         end.

Ltac rectangle_candidates H :=
  cbv [path_candidates path rectangle_ring removelast combine tl map app
       nth_error] in H;
  cbn [fst snd] in H.

Ltac score_lra :=
  unfold score, perpendicular, dot, vsub, midpoint, vdiv, vadd, position;
  cbn [obj fst snd unit_direction];
  split_Qabs; rewrite ?Qhalf in *; lra.

Section AxisDirections.

Variable Theta : Type.
Variable intersection : list vec -> Theta -> vec -> result vec.

(** X11.  On a circle the four unit directions along the axes resolve to
    the four single pins: [get_connection_point] with (0,1), (0,-1), (-1,0)
    and (1,0) returns the position of the top, bottom, left and right
    pin. *)
Theorem circle_axis_is_pin (c : vec) (r : Q) (verts : list vec) (t : Token) :
  exists p q,
    get_connection_point (circle_node c r verts) (unit_direction t) = Ok p /\
    pin intersection (circle_node c r verts) (DStr (token_name t)) None = Ok q /\
    p =v= pin_position q.
Proof.
  eexists. eexists.
  split; [reflexivity |].
  split; [apply (pin_token_plain Theta intersection _ (r * 2) (r * 2) t);
          reflexivity |].
  unfold veq, position.
  destruct t;
    cbn [circle_node obj pin_position vadd scalev dict_offset unit_direction
         fst snd];
    rewrite ?Qhalf; split; lra.
Qed.

(** X12.  On a rectangle of positive width and height whose path is the
    ring of its four corners, the four unit directions along the axes
    resolve to the four single pins, the middles of the four sides. *)
Theorem rectangle_axis_is_pin
    (style : string) (x y w h : Q) (t : Token) :
  let n := mkNode style (Rectangle (x, y) w h) (rectangle_ring (x, y) w h) in
  by_path n -> 0 < w -> 0 < h ->
  exists c q,
    get_connection_point n (unit_direction t) = Ok c /\
    pin intersection n (DStr (token_name t)) None = Ok q /\
    c =v= pin_position q.
Proof.
  intros n Hn Hw Hh.
  set (i := match t with
            | Bottom => 4 | Right => 5 | Top => 6 | Left => 7
            end%nat).
  destruct (nth_error (path_candidates (path n)) i) as [c |] eqn:Hc;
    [| destruct t; discriminate Hc].
  exists c. eexists.
  split; [| split].
  - apply (connection_point_unique_best n (unit_direction t) i c Hn Hc).
    intros j c' Hj Hc'.
    destruct t; subst i; rectangle_candidates Hc; injection Hc as <-;
      do 8 (destruct j as [| j];
            [first [ congruence
                   | rectangle_candidates Hc'; injection Hc' as <-;
                     subst n; score_lra ] |]);
      destruct j; discriminate Hc'.
  - apply (pin_token_plain Theta intersection n w h t); reflexivity.
  - destruct t; subst i; rectangle_candidates Hc; injection Hc as <-;
      subst n; unfold veq, position;
      cbn [obj pin_position vadd dict_offset midpoint vdiv fst snd];
      rewrite ?Qhalf; split; lra.
Qed.

End AxisDirections.

(** ** The box of a polygon *)

Lemma in_box_midpoint (center : vec) (w h : Q) (a b : vec) :
  in_box center w h a -> in_box center w h b ->
  in_box center w h (midpoint a b).
Proof.
  unfold in_box, midpoint, vdiv, vadd. cbn [fst snd].
  rewrite !Qabs_le_iff, !Qhalf. intros [[? ?] [? ?]] [[? ?] [? ?]].
  repeat split; lra.
Qed.

Lemma polygon_vertices_in_box (n : Node) (w h : Q) (v : vec) :
  obj n = Polygon -> width n = Ok w -> height n = Ok h ->
  In v (removelast (path n)) -> in_box (position n) w h v.
Proof.
  unfold width, height, position, in_box. intros -> Hw Hh Hv.
  destruct (path n) as [| p ps]; [contradiction |].
  destruct (removelast (p :: ps)) as [| v0 rest]; [contradiction |].
  unfold mean_axis0. cbn [map fst snd] in *.
  destruct (amax_abs_dev (fst v0) (map fst rest)
              (mean (fst v0 :: map fst rest))) as (mx & Hmx & _ & Hdx).
  destruct (amax_abs_dev (snd v0) (map snd rest)
              (mean (snd v0 :: map snd rest))) as (my & Hmy & _ & Hdy).
  cbn [map] in Hmx, Hmy. rewrite Hmx in Hw. rewrite Hmy in Hh.
  cbv [bind] in Hw, Hh. injection Hw as <-. injection Hh as <-.
  split.
  - setoid_replace (mx * 2 / 2) with mx by field.
    apply Hdx. change (In (fst v) (map fst (v0 :: rest))). now apply in_map.
  - setoid_replace (my * 2 / 2) with my by field.
    apply Hdy. change (In (snd v) (map snd (v0 :: rest))). now apply in_map.
Qed.

Lemma ring_edges_in (vs : list vec) (a b : vec) :
  In (a, b) (ring_edges vs) -> In a vs /\ In b vs.
Proof.
  unfold ring_edges. intros H. split.
  - eapply in_combine_l; eassumption.
  - apply in_combine_r in H. apply in_app_or in H. destruct H as [H | H].
    + destruct vs; [contradiction | now right].
    + destruct vs as [| v vs]; simpl in H; [contradiction |].
      destruct H as [<- | []]. now left.
Qed.

(** X13.  For a polygon whose path is a closed ring, every vertex and
    every middle of an edge lies in the box of the polygon's width and
    height around its centroid, and so does the point that
    [get_connection_point] returns, whatever the direction. *)
Theorem polygon_connection_point_in_box
    (n : Node) (v0 : vec) (rest : list vec) (d : vec) :
  by_path n -> obj n = Polygon -> path n = (v0 :: rest) ++ [v0] ->
  exists w h c,
    width n = Ok w /\ height n = Ok h /\
    (forall c', In c' (candidate_set (v0 :: rest)) ->
                in_box (position n) w h c') /\
    get_connection_point n d = Ok c /\
    in_box (position n) w h c.
Proof.
  intros Hn Hobj Hpath.
  assert (Hring : removelast (path n) = v0 :: rest)
    by (rewrite Hpath; apply removelast_last).
  assert (Hs : is_shape n = true) by (unfold is_shape; now rewrite Hobj, Hring).
  destruct (is_shape_extent n Hs) as (w & h & Hw & Hh).
  assert (Hbox : forall c', In c' (candidate_set (v0 :: rest)) ->
                            in_box (position n) w h c').
  { intros c' Hc'. unfold candidate_set in Hc'. apply in_app_or in Hc'.
    destruct Hc' as [Hv | Hm].
    - apply (polygon_vertices_in_box n w h c' Hobj Hw Hh). now rewrite Hring.
    - apply in_map_iff in Hm. destruct Hm as ([a b] & <- & Hab).
      apply ring_edges_in in Hab. destruct Hab as [Ha Hb].
      apply in_box_midpoint;
        apply (polygon_vertices_in_box n w h _ Hobj Hw Hh); now rewrite Hring. }
  assert (Hne : path_candidates (path n) <> []).
  { rewrite Hpath, path_candidates_ring. discriminate. }
  destruct (connection_point_argmax n d Hn Hne) as (i & c & Hr & Hi & _).
  exists w, h, c.
  split; [exact Hw |]. split; [exact Hh |]. split; [exact Hbox |].
  split; [exact Hr |].
  apply Hbox. rewrite <- path_candidates_ring, <- Hpath.
  eapply nth_error_In; eassumption.
Qed.

(** ** Moving a node *)

Lemma fold_right_Qplus_shift (l : list Q) (t : Q) :
  fold_right Qplus 0 (map (fun x => x + t) l)
  == fold_right Qplus 0 l + inject_Z (Z.of_nat (List.length l)) * t.
Proof.
  induction l as [| x l IH].
  - simpl. ring.
  - cbn [map fold_right List.length]. rewrite IH.
    rewrite Nat2Z.inj_succ, <- Z.add_1_r, inject_Z_plus.
    change (inject_Z 1) with 1. ring.
Qed.

Lemma mean_shift (x : Q) (l : list Q) (t : Q) :
  mean (map (fun y => y + t) (x :: l)) == mean (x :: l) + t.
Proof.
  unfold mean, sum. rewrite !fold_left_Qplus, fold_right_Qplus_shift.
  rewrite length_map.
  pose proof (length_not_zero x l) as Hlen.
  field. exact Hlen.
Qed.

Lemma removelast_map {A B : Type} (f : A -> B) (l : list A) :
  removelast (map f l) = map f (removelast l).
Proof.
  induction l as [| a [| b l] IH]; try reflexivity.
  change (f a :: removelast (map f (b :: l)) = f a :: map f (removelast (b :: l))).
  now rewrite IH.
Qed.

Lemma map_fst_vadd (t : vec) (l : list vec) :
  map fst (map (fun v => vadd v t) l) = map (fun x => x + fst t) (map fst l).
Proof. rewrite !map_map. reflexivity. Qed.

Lemma map_snd_vadd (t : vec) (l : list vec) :
  map snd (map (fun v => vadd v t) l) = map (fun y => y + snd t) (map snd l).
Proof. rewrite !map_map. reflexivity. Qed.

Lemma position_translate (t : vec) (n : Node) :
  has_position (ANode n) = true ->
  position (translate t n) =v= vadd (position n) t.
Proof.
  unfold has_position, position, translate. cbn [obj path].
  destruct (obj n) as [c r | [x y] w h | |]; cbn [translate_patch]; intros Hp.
  - apply veq_refl.
  - split; simpl; ring.
  - rewrite removelast_map.
    destruct (removelast (path n)) as [| v vs]; [discriminate |].
    unfold mean_axis0. rewrite map_fst_vadd, map_snd_vadd.
    split; cbn [fst snd vadd]; apply (mean_shift _ _ _).
  - rewrite removelast_map.
    destruct (removelast (path n)) as [| v vs]; [discriminate |].
    unfold mean_axis0. rewrite map_fst_vadd, map_snd_vadd.
    split; cbn [fst snd vadd]; apply (mean_shift _ _ _).
Qed.

Lemma fold_left_Qmax_ext (l l' : list Q) :
  Forall2 Qeq l l' ->
  forall x x', x == x' -> fold_left Qmax l x == fold_left Qmax l' x'.
Proof.
  induction 1 as [| a a' l l' Ha _ IH]; intros x x' Hx; simpl.
  - exact Hx.
  - apply IH. now rewrite Hx, Ha.
Qed.

Lemma abs_dev_shift (x : Q) (l : list Q) (t : Q) :
  Forall2 Qeq
    (map (fun y => Qabs (y - mean (map (fun y => y + t) (x :: l))))
         (map (fun y => y + t) (x :: l)))
    (map (fun y => Qabs (y - mean (x :: l))) (x :: l)).
Proof.
  pose proof (mean_shift x l t) as Hmean.
  set (m' := mean (map (fun y => y + t) (x :: l))) in *.
  set (m := mean (x :: l)) in *.
  clearbody m m'. generalize (x :: l). intros ys.
  induction ys as [| y ys IH]; cbn [map]; constructor; [| exact IH].
  apply Qabs_wd. rewrite Hmean. ring.
Qed.

Lemma amax_ext (l l' : list Q) :
  Forall2 Qeq l l' ->
  match amax l, amax l' with
  | Ok m, Ok m' => m == m'
  | Raise e, Raise e' => e = e'
  | _, _ => False
  end.
Proof.
  intros [| a a' k k' Ha Hk]; simpl; [reflexivity |].
  now apply fold_left_Qmax_ext.
Qed.

Lemma width_translate (t : vec) (n : Node) :
  is_shape n = true ->
  exists w w', width n = Ok w /\ width (translate t n) = Ok w' /\ w' == w.
Proof.
  unfold is_shape, width, translate. cbn [obj path].
  destruct (obj n) as [c r | xy w h | |]; cbn [translate_patch]; intros Hs;
    try discriminate.
  - exists (r * 2), (r * 2). repeat split; reflexivity.
  - exists w, w. repeat split; reflexivity.
  - rewrite removelast_map, map_fst_vadd.
    destruct (path n) as [| p ps]; [discriminate |]. cbn [map].
    destruct (removelast (p :: ps)) as [| v vs]; [discriminate |].
    pose proof (amax_ext _ _ (abs_dev_shift (fst v) (map fst vs) (fst t))) as H.
    cbn [map amax bind] in *.
    eexists. eexists. split; [reflexivity |]. split; [reflexivity |].
    apply Qmult_comp; [exact H | reflexivity].
Qed.

Lemma height_translate (t : vec) (n : Node) :
  is_shape n = true ->
  exists h h', height n = Ok h /\ height (translate t n) = Ok h' /\ h' == h.
Proof.
  unfold is_shape, height, translate. cbn [obj path].
  destruct (obj n) as [c r | xy w h | |]; cbn [translate_patch]; intros Hs;
    try discriminate.
  - exists (r * 2), (r * 2). repeat split; reflexivity.
  - exists h, h. repeat split; reflexivity.
  - rewrite removelast_map, map_snd_vadd.
    destruct (path n) as [| p ps]; [discriminate |]. cbn [map].
    destruct (removelast (p :: ps)) as [| v vs]; [discriminate |].
    pose proof (amax_ext _ _ (abs_dev_shift (snd v) (map snd vs) (snd t))) as H.
    cbn [map amax bind] in *.
    eexists. eexists. split; [reflexivity |]. split; [reflexivity |].
    apply Qmult_comp; [exact H | reflexivity].
Qed.

Lemma shape_has_position (n : Node) :
  is_shape n = true -> has_position (ANode n) = true.
Proof.
  unfold is_shape, has_position. destruct (obj n); trivial; discriminate.
Qed.

(** X14.  Moving a shape by [t] (its patch and every row of its path)
    moves its centroid by [t] and leaves its width and its height as they
    were. *)
Theorem translate_position_extent (t : vec) (n : Node) :
  is_shape n = true ->
  exists w h w' h',
    width n = Ok w /\ height n = Ok h /\
    width (translate t n) = Ok w' /\ height (translate t n) = Ok h' /\
    w' == w /\ h' == h /\
    position (translate t n) =v= vadd (position n) t.
Proof.
  intros Hs.
  destruct (width_translate t n Hs) as (w & w' & Hw & Hw' & Hww).
  destruct (height_translate t n Hs) as (h & h' & Hh & Hh' & Hhh).
  exists w, h, w', h'.
  split; [exact Hw |]. split; [exact Hh |].
  split; [exact Hw' |]. split; [exact Hh' |].
  split; [exact Hww |]. split; [exact Hhh |].
  apply position_translate, shape_has_position, Hs.
Qed.

Section MovedPins.

Variable Theta : Type.
Variable intersection : list vec -> Theta -> vec -> result vec.

(** X15.  Pins move with their shape: after moving a shape by [v], every
    single pin and every compound pin is the pin of the shape before the
    move, moved by [v]. *)
Theorem translate_pins (v : vec) (n : Node) (t1 t2 : Token) :
  is_shape n = true ->
  (exists p p',
     pin intersection n (DStr (token_name t1)) None = Ok p /\
     pin intersection (translate v n) (DStr (token_name t1)) None = Ok p' /\
     pin_position p' =v= vadd (pin_position p) v) /\
  (exists p p',
     __getattr__ n (compound (token_name t1) (token_name t2)) = Ok p /\
     __getattr__ (translate v n) (compound (token_name t1) (token_name t2))
     = Ok p' /\
     pin_position p' =v= vadd (pin_position p) v).
Proof.
  intros Hs.
  destruct (width_translate v n Hs) as (w & w' & Hw & Hw' & Hww).
  destruct (height_translate v n Hs) as (h & h' & Hh & Hh' & Hhh).
  destruct (position_translate v n (shape_has_position n Hs)) as [Hx Hy].
  cbn [vadd fst snd] in Hx, Hy.
  split; eexists; eexists.
  - split; [apply (pin_token_plain Theta intersection n w h t1 Hw Hh) |].
    split; [apply (pin_token_plain Theta intersection _ w' h' t1 Hw' Hh') |].
    destruct t1; split; cbn [pin_position dict_offset vadd fst snd];
      rewrite ?Hx, ?Hy, ?Hww, ?Hhh; ring.
  - split; [apply (getattr_compound n w h t1 t2 Hw Hh) |].
    split; [apply (getattr_compound _ w' h' t1 t2 Hw' Hh') |].
    destruct t1, t2; split; cbn [pin_position dict_offset vadd vscale fst snd];
      rewrite ?Hx, ?Hy, ?Hww, ?Hhh; ring.
Qed.

End MovedPins.

(** ** Diagonal directions on a rectangle *)

(** X17.  On a rectangle of positive width and height whose path is the
    ring of its four corners, a diagonal direction, the sum of a vertical
    and a horizontal unit direction, resolves to the corner on that side:
    the centroid plus both offsets, not the middle of a side. *)
Theorem rectangle_diagonal_is_corner
    (style : string) (x y w h : Q) (tv th : Token) :
  let n := mkNode style (Rectangle (x, y) w h) (rectangle_ring (x, y) w h) in
  by_path n -> 0 < w -> 0 < h ->
  is_vertical tv = true -> is_vertical th = false ->
  exists c,
    get_connection_point n (vadd (unit_direction tv) (unit_direction th)) = Ok c /\
    c =v= vadd (vadd (position n) (offset w h tv)) (offset w h th).
Proof.
  intros n Hn Hw Hh Hv Hh'.
  set (i := match tv, th with
            | Bottom, Left => 0 | Bottom, _ => 1 | _, Right => 2 | _, _ => 3
            end%nat).
  destruct (nth_error (path_candidates (path n)) i) as [c |] eqn:Hc;
    [| destruct tv, th; discriminate Hc].
  exists c. split.
  - apply (connection_point_unique_best n _ i c Hn Hc).
    intros j c' Hj Hc'.
    destruct tv, th; try discriminate Hv; try discriminate Hh';
      subst i; rectangle_candidates Hc; injection Hc as <-;
      do 8 (destruct j as [| j];
            [first [ congruence
                   | rectangle_candidates Hc'; injection Hc' as <-;
                     subst n; score_lra ] |]);
      destruct j; discriminate Hc'.
  - destruct tv, th; try discriminate Hv; try discriminate Hh';
      subst i; rectangle_candidates Hc; injection Hc as <-;
      subst n; unfold veq, position;
      cbn [obj vadd offset fst snd];
      rewrite ?Qhalf; split; lra.
Qed.

(** ** Edges *)

(** X18.  The position of an edge is the middle of its two ends: it is at
    the same distance from both, and it does not depend on which end is the
    start. *)
Theorem edge_position_middle (a b : vec) :
  dist2 (edge_position (mkEdge a b)) a == dist2 (edge_position (mkEdge a b)) b /\
  edge_position (mkEdge a b) =v= edge_position (mkEdge b a) /\
  vadd (edge_position (mkEdge a b)) (edge_position (mkEdge a b)) =v= vadd a b.
Proof.
  unfold dist2, dot, vsub, edge_position, vdiv, vadd, veq.
  cbn [start_xy end_xy fst snd].
  repeat split; field.
Qed.

(** ** Alignment between two nodes *)

Section Alignment.

Variable Theta : Type.
Variable intersection : list vec -> Theta -> vec -> result vec.

(** X19.  A pin aligned to another shape is level with that shape's own
    pins: a left or right pin aligned to a shape [m] has the y of the left
    and the right pin of [m], and a top or bottom pin aligned to [m] has the
    x of the top and the bottom pin of [m], so that the wire between them is
    parallel to an axis. *)
Theorem aligned_pin_level (n m : Node) (t t' : Token) :
  is_shape n = true -> is_shape m = true ->
  is_vertical t = is_vertical t' ->
  exists p q,
    pin intersection n (DStr (token_name t)) (Some (ANode m)) = Ok p /\
    pin intersection m (DStr (token_name t')) None = Ok q /\
    (if is_vertical t
     then fst (pin_position p) == fst (pin_position q)
     else snd (pin_position p) == snd (pin_position q)).
Proof.
  intros Hn Hm Ht.
  destruct (is_shape_extent n Hn) as (w & h & Hw & Hh).
  destruct (is_shape_extent m Hm) as (w' & h' & Hw' & Hh').
  eexists. eexists.
  split; [apply (pin_token_aligned Theta intersection n w h t _ Hw Hh) |].
  split; [apply (pin_token_plain Theta intersection m w' h' t' Hw' Hh') |].
  destruct t, t'; try discriminate Ht;
    cbn [is_vertical pin_position position_of dict_offset vadd fst snd]; ring.
Qed.

(** X20.  Alignment is idempotent: aligning a pin of a shape to the pin
    that an alignment to a target with a position has produced gives that
    pin again. *)
Theorem pin_align_idempotent (n : Node) (t : Token) (target : EdgeNode) :
  is_shape n = true -> has_position target = true ->
  exists p,
    pin intersection n (DStr (token_name t)) (Some target) = Ok p /\
    pin intersection n (DStr (token_name t)) (Some (APin p)) = Ok p.
Proof.
  intros Hs _. destruct (is_shape_extent n Hs) as (w & h & Hw & Hh).
  eexists.
  split; [apply (pin_token_aligned Theta intersection n w h t target Hw Hh) |].
  rewrite (pin_token_aligned Theta intersection n w h t _ Hw Hh).
  destruct t; reflexivity.
Qed.

End Alignment.

(** ** Compound names of one axis *)

(** X21.  [__getattr__] does not ask the two tokens to be of different
    axes: a token joined with itself gives the centroid plus 1.8 times the
    token's offset, and a token joined with its opposite gives the centroid
    plus 0.2 times the offset of the first. *)
Theorem getattr_same_axis (n : Node) (w h : Q) :
  width n = Ok w -> height n = Ok h ->
  exists tt tb ll lr,
    __getattr__ n "top_top" = Ok tt /\
    __getattr__ n "top_bottom" = Ok tb /\
    __getattr__ n "left_left" = Ok ll /\
    __getattr__ n "left_right" = Ok lr /\
    pin_position tt =v= vadd (position n) (scalev 1.8 (offset w h Top)) /\
    pin_position tb =v= vadd (position n) (scalev 0.2 (offset w h Top)) /\
    pin_position ll =v= vadd (position n) (scalev 1.8 (offset w h Left)) /\
    pin_position lr =v= vadd (position n) (scalev 0.2 (offset w h Left)).
Proof.
  intros Hw Hh. do 4 eexists.
  split; [apply (getattr_compound n w h Top Top Hw Hh) |].
  split; [apply (getattr_compound n w h Top Bottom Hw Hh) |].
  split; [apply (getattr_compound n w h Left Left Hw Hh) |].
  split; [apply (getattr_compound n w h Left Right Hw Hh) |].
  unfold veq.
  cbn [pin_position dict_offset offset vadd vscale scalev fst snd].
  rewrite !Qhalf. repeat split; lra.
Qed.

(** ** The further theorems at concrete nodes *)

Lemma extent_defined_iff_witness :
  is_shape empty_list_polygon = false /\
  width empty_list_polygon = Raise TypeError /\
  height empty_list_polygon = Raise TypeError.
Proof.
  split; [reflexivity |].
  destruct (proj2 (proj2 (extent_defined_iff empty_list_polygon)) eq_refl)
    as [(Ho & _) | [(_ & _ & Hw & Hh) | (_ & Hlen & _)]];
    [discriminate Ho | exact (conj Hw Hh) | discriminate Hlen].
Defined.

Lemma polygon_extent_nonneg_witness :
  exists w h,
    obj unit_square = Polygon /\
    width unit_square = Ok w /\ height unit_square = Ok h /\
    0 <= w /\ 0 <= h.
Proof.
  eexists. eexists.
  split; [reflexivity |].
  split; [vm_compute; reflexivity |]. split; [vm_compute; reflexivity |].
  apply (polygon_extent_nonneg unit_square);
    [reflexivity | vm_compute; reflexivity | vm_compute; reflexivity].
Defined.

Lemma getattr_ok_iff_witness :
  is_shape unit_square = true /\
  (exists t1 t2, "bottom_right"%string = compound (token_name t1) (token_name t2)) /\
  exists p, __getattr__ unit_square "bottom_right" = Ok p.
Proof.
  assert (H : exists t1 t2,
             "bottom_right"%string = compound (token_name t1) (token_name t2))
    by (exists Bottom, Right; reflexivity).
  split; [reflexivity |]. split; [exact H |].
  apply (proj2 (proj1 (getattr_ok_iff unit_square "bottom_right"))).
  split; [reflexivity | exact H].
Defined.


Lemma compound_pin_on_first_side_witness :
  width rect_node = Ok 4 /\ height rect_node = Ok 2 /\ 0 <= 4 /\ 0 <= 2 /\
  is_vertical Top <> is_vertical Left /\
  exists p q,
    __getattr__ rect_node "top_left" = Ok p /\
    pin no_intersection rect_node (DStr "top") None = Ok q /\
    in_box (position rect_node) 4 2 (pin_position p) /\
    snd (pin_position p) == snd (pin_position q).
Proof.
  assert (H4 : 0 <= 4) by (unfold Qle; simpl; lia).
  assert (H2 : 0 <= 2) by (unfold Qle; simpl; lia).
  assert (Hax : is_vertical Top <> is_vertical Left) by discriminate.
  split; [reflexivity |]. split; [reflexivity |].
  split; [exact H4 |]. split; [exact H2 |]. split; [exact Hax |].
  apply (compound_pin_on_first_side unit no_intersection rect_node 4 2 Top Left
           eq_refl eq_refl H4 H2 Hax).
Defined.

Lemma pin_align_self_witness :
  is_shape rect_node = true /\
  exists p p' q,
    pin no_intersection rect_node (DStr "left") (Some (ANode rect_node)) = Ok p /\
    pin no_intersection rect_node (DStr "left")
        (Some (APin (center rect_node))) = Ok p' /\
    pin no_intersection rect_node (DStr "left") None = Ok q /\
    pin_position p =v= pin_position q /\
    pin_position p' =v= pin_position q.
Proof.
  split; [reflexivity |].
  apply (pin_align_self unit no_intersection rect_node Left). reflexivity.
Defined.

Lemma text_beyond_pin_witness :
  is_shape rect_node = true /\
  exists c q,
    text example_setting (ANode rect_node) "x" (AtName "right")
         (Some 12) "k" (Some 0.07) = Ok c /\
    pin no_intersection rect_node (DStr "right") None = Ok q /\
    (text_x c, text_y c) =v= vadd (pin_position q) (scalev 0.07 (1, 0)) /\
    (text_va c, text_ha c) = ("center", "left")%string /\
    text_s c = "x"%string /\ text_fontsize c = 12 /\ text_color c = "k"%string.
Proof.
  split; [reflexivity |].
  apply (text_beyond_pin example_setting unit no_intersection rect_node Right
           "x" "k" 12 0.07).
  reflexivity.
Defined.

Lemma text_position_cases_witness :
  width_of (ANode single_row_polygon) = Raise ValueError /\
  text example_setting (ANode single_row_polygon) "x" (AtName "center")
       (Some 12) "k" (Some 0.07) = Raise ValueError.
Proof.
  split; [reflexivity |].
  apply (proj1 (text_position_cases example_setting
                  (ANode single_row_polygon) "x" "k" 12 0.07)).
  reflexivity.
Defined.

Lemma rectangle_axis_is_pin_witness :
  by_path rect_ring_node /\ 0 < 4 /\ 0 < 2 /\
  exists c q,
    get_connection_point rect_ring_node (1, 0) = Ok c /\
    pin no_intersection rect_ring_node (DStr "right") None = Ok q /\
    c =v= pin_position q.
Proof.
  split; [reflexivity |]. split; [reflexivity |]. split; [reflexivity |].
  apply (rectangle_axis_is_pin unit no_intersection "rectangle" 0 0 4 2 Right);
    reflexivity.
Defined.

Lemma polygon_connection_point_in_box_witness :
  by_path unit_square /\ obj unit_square = Polygon /\
  path unit_square = ((0, 0) :: [(1, 0); (1, 1); (0, 1)]) ++ [(0, 0)] /\
  exists w h c,
    width unit_square = Ok w /\ height unit_square = Ok h /\
    (forall c', In c' (candidate_set [(0, 0); (1, 0); (1, 1); (0, 1)]) ->
                in_box (position unit_square) w h c') /\
    get_connection_point unit_square (1, 1) = Ok c /\
    in_box (position unit_square) w h c.
Proof.
  split; [reflexivity |]. split; [reflexivity |]. split; [reflexivity |].
  apply (polygon_connection_point_in_box unit_square (0, 0)
           [(1, 0); (1, 1); (0, 1)] (1, 1)); reflexivity.
Defined.

Lemma translate_position_extent_witness :
  is_shape unit_square = true /\
  exists w h w' h',
    width unit_square = Ok w /\ height unit_square = Ok h /\
    width (translate (3, -2) unit_square) = Ok w' /\
    height (translate (3, -2) unit_square) = Ok h' /\
    w' == w /\ h' == h /\
    position (translate (3, -2) unit_square)
    =v= vadd (position unit_square) (3, -2).
Proof.
  split; [reflexivity |].
  apply (translate_position_extent (3, -2) unit_square). reflexivity.
Defined.

Lemma translate_pins_witness :
  is_shape unit_square = true /\
  exists p p',
    pin no_intersection unit_square (DStr "top") None = Ok p /\
    pin no_intersection (translate (3, -2) unit_square) (DStr "top") None
    = Ok p' /\
    pin_position p' =v= vadd (pin_position p) (3, -2).
Proof.
  split; [reflexivity |].
  apply (proj1 (translate_pins unit no_intersection (3, -2) unit_square
                  Top Left eq_refl)).
Defined.

Lemma rectangle_diagonal_is_corner_witness :
  by_path rect_ring_node /\ 0 < 4 /\ 0 < 2 /\
  is_vertical Top = true /\ is_vertical Right = false /\
  exists c,
    get_connection_point rect_ring_node (vadd (0, 1) (1, 0)) = Ok c /\
    c =v= vadd (vadd (position rect_ring_node) (offset 4 2 Top)) (offset 4 2 Right).
Proof.
  split; [reflexivity |]. split; [reflexivity |]. split; [reflexivity |].
  split; [reflexivity |]. split; [reflexivity |].
  apply (rectangle_diagonal_is_corner "rectangle" 0 0 4 2 Top Right);
    reflexivity.
Defined.

Lemma aligned_pin_level_witness :
  is_shape rect_node = true /\ is_shape unit_square = true /\
  is_vertical Right = is_vertical Left /\
  exists p q,
    pin no_intersection rect_node (DStr "right") (Some (ANode unit_square)) = Ok p /\
    pin no_intersection unit_square (DStr "left") None = Ok q /\
    snd (pin_position p) == snd (pin_position q).
Proof.
  split; [reflexivity |]. split; [reflexivity |]. split; [reflexivity |].
  apply (aligned_pin_level unit no_intersection rect_node unit_square Right Left);
    reflexivity.
Defined.

Lemma pin_align_idempotent_witness :
  is_shape rect_node = true /\ has_position (ANode unit_square) = true /\
  exists p,
    pin no_intersection rect_node (DStr "top") (Some (ANode unit_square)) = Ok p /\
    pin no_intersection rect_node (DStr "top") (Some (APin p)) = Ok p.
Proof.
  split; [reflexivity |]. split; [reflexivity |].
  apply (pin_align_idempotent unit no_intersection rect_node Top
           (ANode unit_square)); reflexivity.
Defined.

Lemma getattr_same_axis_witness :
  width rect_node = Ok 4 /\ height rect_node = Ok 2 /\
  exists tt tb ll lr,
    __getattr__ rect_node "top_top" = Ok tt /\
    __getattr__ rect_node "top_bottom" = Ok tb /\
    __getattr__ rect_node "left_left" = Ok ll /\
    __getattr__ rect_node "left_right" = Ok lr /\
    pin_position tt =v= vadd (position rect_node) (scalev 1.8 (offset 4 2 Top)) /\
    pin_position tb =v= vadd (position rect_node) (scalev 0.2 (offset 4 2 Top)) /\
    pin_position ll =v= vadd (position rect_node) (scalev 1.8 (offset 4 2 Left)) /\
    pin_position lr =v= vadd (position rect_node) (scalev 0.2 (offset 4 2 Left)).
Proof.
  split; [reflexivity |]. split; [reflexivity |].
  apply (getattr_same_axis rect_node 4 2); reflexivity.
Defined.

(** * [get_connection_point] in float64: properties *)

(** ** The order of binary64 numbers *)

Lemma SFleb_SFltb_trans (a b c : spec_float) :
  SFleb a b = true -> SFltb b c = true -> SFltb a c = true.
Proof.
  unfold SFleb, SFltb.
  destruct a as [sa | sa | | sa ma ea], b as [sb | sb | | sb mb eb],
           c as [sc | sc | | sc mc ec]; simpl;
    try discriminate; try reflexivity;
    repeat match goal with s : bool |- _ => destruct s end; simpl;
    try discriminate; try reflexivity.
  all: change (Pos.compare_cont Eq) with Pos.compare.
  all: destruct (Z.compare_spec ea eb), (Z.compare_spec eb ec),
         (Z.compare_spec ea ec);
       try discriminate; try reflexivity; try lia; subst.
  all: destruct (Pos.compare_spec ma mb), (Pos.compare_spec mb mc),
         (Pos.compare_spec ma mc);
       simpl; try discriminate; try reflexivity; try lia.
Qed.

Lemma SFleb_false_SFltb (a b : spec_float) :
  a <> S754_nan -> b <> S754_nan -> SFleb a b = false -> SFltb b a = true.
Proof.
  unfold SFleb, SFltb.
  destruct a as [sa | sa | | sa ma ea], b as [sb | sb | | sb mb eb]; simpl;
    try congruence;
    repeat match goal with s : bool |- _ => destruct s end; simpl;
    try discriminate; try reflexivity; intros _ _.
  all: change (Pos.compare_cont Eq) with Pos.compare.
  all: destruct (Z.compare_spec ea eb), (Z.compare_spec eb ea);
       try discriminate; try reflexivity; try lia; subst.
  all: destruct (Pos.compare_spec ma mb), (Pos.compare_spec mb ma);
       simpl; try discriminate; try reflexivity; try lia.
Qed.

Lemma SFcompare_refl (s : spec_float) :
  SFcompare s s = match s with S754_nan => None | _ => Some Eq end.
Proof.
  destruct s as [sg | sg | | sg m e]; simpl; try reflexivity.
  - destruct sg; reflexivity.
  - rewrite Z.compare_refl. change (Pos.compare_cont Eq m m) with (Pos.compare m m).
    rewrite Pos.compare_refl. destruct sg; reflexivity.
Qed.

Lemma leb_refl_not_nan (a : float) : (a <=? a)%float = true -> is_nan a = false.
Proof.
  unfold is_nan. rewrite FloatAxioms.eqb_spec, FloatAxioms.leb_spec.
  unfold SFeqb, SFleb. rewrite SFcompare_refl.
  destruct (Prim2SF a); simpl; congruence.
Qed.

Lemma not_nan_spec (x : float) : is_nan x = false -> Prim2SF x <> S754_nan.
Proof.
  unfold is_nan. rewrite FloatAxioms.eqb_spec. intros H Hx. rewrite Hx in H.
  discriminate H.
Qed.

Lemma leb_ltb_trans (a b c : float) :
  (a <=? b)%float = true -> (b <? c)%float = true -> (a <? c)%float = true.
Proof. rewrite FloatAxioms.leb_spec, !FloatAxioms.ltb_spec. apply SFleb_SFltb_trans. Qed.

Lemma leb_false_ltb (a b : float) :
  is_nan a = false -> is_nan b = false ->
  (a <=? b)%float = false -> (b <? a)%float = true.
Proof.
  intros Ha Hb. rewrite FloatAxioms.leb_spec, FloatAxioms.ltb_spec.
  apply SFleb_false_SFltb; now apply not_nan_spec.
Qed.

Lemma ltb_leb (a b : float) : (a <? b)%float = true -> (a <=? b)%float = true.
Proof.
  rewrite FloatAxioms.leb_spec, FloatAxioms.ltb_spec. unfold SFleb, SFltb.
  destruct (SFcompare (Prim2SF a) (Prim2SF b)) as [[| |] |]; congruence.
Qed.

Lemma leb_refl (a : float) : is_nan a = false -> (a <=? a)%float = true.
Proof.
  unfold is_nan. rewrite FloatAxioms.eqb_spec, FloatAxioms.leb_spec. unfold SFeqb, SFleb.
  destruct (SFcompare (Prim2SF a) (Prim2SF a)) as [[| |] |];
    simpl; congruence.
Qed.

(** ** [np.argmax] on float64 *)

Lemma argmax_loop_spec (ip pre : list float) (max_ind : nat) (mp : float) :
  nth_error pre max_ind = Some mp ->
  (forall y, In y pre -> (y <=? mp)%float = true) ->
  (forall j y, (j < max_ind)%nat -> nth_error pre j = Some y ->
               (y <? mp)%float = true) ->
  (forall y, In y ip -> is_nan y = false) ->
  exists m,
    nth_error (pre ++ ip)
              (Float64.argmax_loop mp max_ind (List.length pre) ip) = Some m /\
    (forall y, In y (pre ++ ip) -> (y <=? m)%float = true) /\
    (forall j y,
        (j < Float64.argmax_loop mp max_ind (List.length pre) ip)%nat ->
        nth_error (pre ++ ip) j = Some y -> (y <? m)%float = true).
Proof.
  revert pre max_ind mp.
  induction ip as [| x ip IH]; intros pre max_ind mp Hnth Hle Hlt Hnan.
  - simpl. rewrite app_nil_r. eauto.
  - assert (Hbound : (max_ind < List.length pre)%nat).
    { apply nth_error_Some. congruence. }
    assert (Hx : is_nan x = false) by (apply Hnan; now left).
    assert (Hmp : is_nan mp = false).
    { apply leb_refl_not_nan. apply Hle. eapply nth_error_In; eassumption. }
    replace (pre ++ x :: ip) with ((pre ++ [x]) ++ ip)
      by (rewrite <- app_assoc; reflexivity).
    assert (Hlen : List.length (pre ++ [x]) = S (List.length pre)).
    { rewrite length_app. simpl. lia. }
    cbn [Float64.argmax_loop].
    destruct (x <=? mp)%float eqn:Hxmp.
    + specialize (IH (pre ++ [x]) max_ind mp).
      rewrite Hlen in IH. apply IH.
      * rewrite nth_error_app1 by lia. exact Hnth.
      * intros y Hy. apply in_app_or in Hy. destruct Hy as [Hy | [<- | []]].
        -- now apply Hle.
        -- exact Hxmp.
      * intros j y Hj Hy. rewrite nth_error_app1 in Hy by lia.
        now apply (Hlt j).
      * intros y Hy. apply Hnan. now right.
    + rewrite Hx.
      pose proof (leb_false_ltb x mp Hx Hmp Hxmp) as Hlt'.
      specialize (IH (pre ++ [x]) (List.length pre) x).
      rewrite Hlen in IH. apply IH.
      * rewrite nth_error_app2 by lia. now rewrite Nat.sub_diag.
      * intros y Hy. apply in_app_or in Hy. destruct Hy as [Hy | [<- | []]].
        -- apply ltb_leb. eapply leb_ltb_trans; [apply Hle, Hy | exact Hlt'].
        -- now apply leb_refl.
      * intros j y Hj Hy. rewrite nth_error_app1 in Hy by lia.
        apply nth_error_In in Hy.
        eapply leb_ltb_trans; [apply Hle, Hy | exact Hlt'].
      * intros y Hy. apply Hnan. now right.
Qed.

Lemma argmax64_spec (a : list float) :
  a <> [] -> (forall y, In y a -> is_nan y = false) ->
  exists i m,
    Float64.argmax a = Ok i /\
    nth_error a i = Some m /\
    (forall y, In y a -> (y <=? m)%float = true) /\
    (forall j y, (j < i)%nat -> nth_error a j = Some y -> (y <? m)%float = true).
Proof.
  destruct a as [| x a]; [congruence |]. intros _ Hnan.
  assert (Hx : is_nan x = false) by (apply Hnan; now left).
  destruct (argmax_loop_spec a [x] 0%nat x) as (m & Hm & Hle & Hlt).
  - reflexivity.
  - intros y [<- | []]. now apply leb_refl.
  - intros j y Hj. lia.
  - intros y Hy. apply Hnan. now right.
  - exists (Float64.argmax_loop x 0 1 a), m.
    unfold Float64.argmax. rewrite Hx. simpl in *. auto.
Qed.

Lemma argmax_loop_bound (ip : list float) (mp : float) (max_ind i : nat) :
  (max_ind < i)%nat ->
  (Float64.argmax_loop mp max_ind i ip < i + List.length ip)%nat.
Proof.
  revert mp max_ind i.
  induction ip as [| x ip IH]; intros mp max_ind i Hi; simpl; [lia |].
  destruct (x <=? mp)%float.
  - specialize (IH mp max_ind (S i)). lia.
  - destruct (is_nan x); [lia |].
    specialize (IH x i (S i)). lia.
Qed.

Lemma argmax64_bound (a : list float) :
  a <> [] -> exists i, Float64.argmax a = Ok i /\ (i < List.length a)%nat.
Proof.
  destruct a as [| x a]; [congruence |]. intros _.
  eexists. split; [reflexivity |]. simpl.
  destruct (is_nan x); [lia |].
  pose proof (argmax_loop_bound a x 0 1). lia.
Qed.



(** ** The method on float64 *)

Lemma sub_arrays_length (a b : list float) :
  List.length a = List.length b ->
  List.length (Float64.sub_arrays a b) = List.length a.
Proof.
  revert b. induction a as [| x a IH]; intros [| y b] H; simpl in *;
    try reflexivity; try discriminate.
  f_equal. apply IH. lia.
Qed.

Lemma path_candidates64_ring (v0 : Float64.vec64) (rest : list Float64.vec64) :
  Float64.path_candidates ((v0 :: rest) ++ [v0])
  = Float64.candidate_set (v0 :: rest).
Proof.
  unfold Float64.path_candidates, Float64.candidate_set.
  rewrite removelast_last. reflexivity.
Qed.

Lemma path_candidates64_nil (p : list Float64.vec64) :
  Float64.path_candidates p = [] <-> (List.length p <= 1)%nat.
Proof.
  unfold Float64.path_candidates. rewrite <- removelast_nil_length.
  destruct (removelast p) as [| v vs]; simpl; split; intros H;
    try reflexivity; discriminate.
Qed.

Section Float64Properties.

Variable np_mean0 : list Float64.vec64 -> Float64.vec64.
Variable np_dot : list Float64.vec64 -> Float64.vec64 -> list float.

(** The product of an [(m,2)] array with a 2-vector has [m] entries. *)
Hypothesis np_dot_length :
  forall a b, List.length (np_dot a b) = List.length a.

Lemma computed_scores_length (n : Float64.Node) (d : Float64.vec64) :
  List.length (Float64.computed_scores np_mean0 np_dot n d)
  = List.length (Float64.path_candidates (Float64.path n)).
Proof.
  unfold Float64.computed_scores.
  rewrite sub_arrays_length; rewrite ?length_map, !np_dot_length, ?length_map;
    reflexivity.
Qed.

Lemma connection_point64_by_path (n : Float64.Node) (d : Float64.vec64) :
  Float64.by_path n -> Float64.path n <> [] ->
  Float64.get_connection_point np_mean0 np_dot n d
  = (i <- Float64.argmax (Float64.computed_scores np_mean0 np_dot n d) ;;
     Float64.getrow (Float64.path_candidates (Float64.path n)) i).
Proof.
  intros Hn Hp. unfold Float64.get_connection_point. rewrite Hn.
  destruct (Float64.path n) as [| v vs] eqn:Hv; [contradiction |].
  unfold Float64.computed_scores. rewrite Hv. reflexivity.
Qed.

Lemma connection_point64_index (n : Float64.Node) (d : Float64.vec64) (i : nat) :
  Float64.by_path n -> Float64.path n <> [] ->
  Float64.argmax (Float64.computed_scores np_mean0 np_dot n d) = Ok i ->
  (i < List.length (Float64.computed_scores np_mean0 np_dot n d))%nat ->
  exists c s,
    Float64.get_connection_point np_mean0 np_dot n d = Ok c /\
    nth_error (Float64.path_candidates (Float64.path n)) i = Some c /\
    nth_error (Float64.computed_scores np_mean0 np_dot n d) i = Some s.
Proof.
  intros Hn Hp Hi Hlt.
  rewrite (connection_point64_by_path n d Hn Hp), Hi. cbv [bind].
  unfold Float64.getrow.
  destruct (nth_error (Float64.computed_scores np_mean0 np_dot n d) i)
    as [s |] eqn:Hs; [| apply nth_error_None in Hs; lia].
  rewrite computed_scores_length in Hlt.
  destruct (nth_error (Float64.path_candidates (Float64.path n)) i)
    as [c |] eqn:Hc; [| apply nth_error_None in Hc; lia].
  eauto.
Qed.

(** C3, as the code has it.  For a node resolved through its boundary path,
    a closed ring [v0 :: rest ++ [v0]], and any direction [d] for which no
    computed score is [nan]: the result is a member [c] of the candidate
    list (the vertices [v0 :: rest], then the middle of every edge, the
    closing edge included, each middle as float64 computes it); its score,
    as float64 computes it, is the largest of all computed scores; and every
    candidate before it in the list has a strictly smaller computed
    score. *)
Theorem best_computed_candidate
    (n : Float64.Node) (v0 : Float64.vec64) (rest : list Float64.vec64)
    (d : Float64.vec64) :
  Float64.by_path n ->
  Float64.path n = (v0 :: rest) ++ [v0] ->
  (forall y, In y (Float64.computed_scores np_mean0 np_dot n d) ->
             is_nan y = false) ->
  exists i c s,
    Float64.get_connection_point np_mean0 np_dot n d = Ok c /\
    nth_error (Float64.candidate_set (v0 :: rest)) i = Some c /\
    In c (Float64.candidate_set (v0 :: rest)) /\
    nth_error (Float64.computed_scores np_mean0 np_dot n d) i = Some s /\
    (forall s', In s' (Float64.computed_scores np_mean0 np_dot n d) ->
                (s' <=? s)%float = true) /\
    (forall j s', (j < i)%nat ->
                  nth_error (Float64.computed_scores np_mean0 np_dot n d) j
                  = Some s' ->
                  (s' <? s)%float = true).
Proof.
  intros Hn Hpath Hnan.
  assert (Hp : Float64.path n <> []) by (rewrite Hpath; discriminate).
  assert (Hne : Float64.computed_scores np_mean0 np_dot n d <> []).
  { intros H. apply (f_equal (@List.length float)) in H.
    rewrite computed_scores_length, Hpath, path_candidates64_ring in H.
    discriminate H. }
  destruct (argmax64_spec _ Hne Hnan) as (i & m & Hi & Hm & Hle & Hlt).
  assert (Hbound : (i < List.length
                          (Float64.computed_scores np_mean0 np_dot n d))%nat).
  { apply nth_error_Some. congruence. }
  destruct (connection_point64_index n d i Hn Hp Hi Hbound)
    as (c & s & Hr & Hc & Hs).
  rewrite Hpath, path_candidates64_ring in Hc.
  assert (s = m) as -> by congruence.
  exists i, c, m.
  split; [exact Hr |]. split; [exact Hc |].
  split; [eapply nth_error_In; eassumption |].
  split; [exact Hm |]. split; [exact Hle | exact Hlt].
Qed.


(** X10.  For a node whose style is not 'circle', [get_connection_point]
    raises [TypeError] when the stored path is the empty list, raises
    [ValueError] when the path is an array of one row (there is no
    candidate), and otherwise returns one of the candidates built from the
    path, never indexing outside them; when no computed score is [nan], no
    computed score exceeds that of the candidate returned. *)
Theorem connection_point_rows (n : Float64.Node) (d : Float64.vec64) :
  Float64.by_path n ->
  (Float64.path n = [] ->
   Float64.get_connection_point np_mean0 np_dot n d = Raise TypeError) /\
  (List.length (Float64.path n) = 1%nat ->
   Float64.get_connection_point np_mean0 np_dot n d = Raise ValueError) /\
  ((2 <= List.length (Float64.path n))%nat ->
   exists i c s,
     Float64.get_connection_point np_mean0 np_dot n d = Ok c /\
     nth_error (Float64.path_candidates (Float64.path n)) i = Some c /\
     nth_error (Float64.computed_scores np_mean0 np_dot n d) i = Some s /\
     ((forall y, In y (Float64.computed_scores np_mean0 np_dot n d) ->
                 is_nan y = false) ->
      forall y, In y (Float64.computed_scores np_mean0 np_dot n d) ->
                (y <=? s)%float = true)).
Proof.
  intros Hn. split; [| split].
  - intros Hp. unfold Float64.get_connection_point. rewrite Hn, Hp.
    reflexivity.
  - intros Hlen.
    assert (Hp : Float64.path n <> [])
      by (intros Hp; rewrite Hp in Hlen; discriminate).
    rewrite (connection_point64_by_path n d Hn Hp).
    assert (Hnil : Float64.computed_scores np_mean0 np_dot n d = []).
    { apply length_zero_iff_nil. rewrite computed_scores_length.
      apply length_zero_iff_nil. apply path_candidates64_nil. lia. }
    rewrite Hnil. reflexivity.
  - intros Hlen.
    assert (Hp : Float64.path n <> [])
      by (intros Hp; rewrite Hp in Hlen; simpl in Hlen; lia).
    assert (Hne : Float64.computed_scores np_mean0 np_dot n d <> []).
    { intros H. apply (f_equal (@List.length float)) in H.
      rewrite computed_scores_length in H. simpl in H.
      apply length_zero_iff_nil, path_candidates64_nil in H. lia. }
    destruct (argmax64_bound _ Hne) as (i & Hi & Hbound).
    destruct (connection_point64_index n d i Hn Hp Hi Hbound)
      as (c & s & Hr & Hc & Hs).
    exists i, c, s.
    split; [exact Hr |]. split; [exact Hc |]. split; [exact Hs |].
    intros Hnan.
    destruct (argmax64_spec _ Hne Hnan) as (i' & m & Hi' & Hm & Hle & _).
    assert (i' = i) as -> by congruence.
    assert (m = s) as -> by congruence.
    exact Hle.
Qed.

End Float64Properties.

(** ** The float64 theorems at concrete nodes *)

Lemma dot_length (a : list Float64.vec64) (b : Float64.vec64) :
  List.length (Float64.dot a b) = List.length a.
Proof. apply length_map. Qed.

Lemma no_nan_forallb (a : list float) :
  forallb (fun y => negb (is_nan y)) a = true ->
  forall y, In y a -> is_nan y = false.
Proof.
  intros H y Hy. rewrite forallb_forall in H. specialize (H y Hy).
  now apply negb_true_iff in H.
Qed.

(** C3 fails: on the triangle (0,0), (0,1), (1,2) with the direction (0,1)
    the candidates (1,2), third in the list, and (0.5,1.5), fifth in the
    list, have the same score 1/3 in exact arithmetic, and the method
    returns the fifth: float64 computes 0.33333333333333326 for the one and
    0.33333333333333331 for the other. *)
Lemma exact_tie_later_candidate :
  Float64.get_connection_point Float64.mean0 Float64.dot
    Float64.triangle (0, 1)%float = Ok (0.5, 1.5)%float /\
  nth_error (Float64.candidate_set [(0, 0); (0, 1); (1, 2)]%float) 2
  = Some (1, 2)%float /\
  nth_error (Float64.candidate_set [(0, 0); (0, 1); (1, 2)]%float) 4
  = Some (0.5, 1.5)%float /\
  Forall2 veq (map Float64.exact_vec (Float64.path Float64.triangle))
              (path triangle_exact) /\
  score (position triangle_exact) (Float64.exact_vec (0, 1)%float)
        (Float64.exact_vec (1, 2)%float)
  == score (position triangle_exact) (Float64.exact_vec (0, 1)%float)
           (Float64.exact_vec (0.5, 1.5)%float) /\
  score (position triangle_exact) (Float64.exact_vec (0, 1)%float)
        (Float64.exact_vec (1, 2)%float) == 1 # 3.
Proof.
  split; [vm_compute; reflexivity |].
  split; [vm_compute; reflexivity |].
  split; [vm_compute; reflexivity |].
  split; [repeat constructor; vm_compute; reflexivity |].
  split; vm_compute; reflexivity.
Qed.


Lemma best_computed_candidate_witness :
  Float64.by_path Float64.unit_square /\
  Float64.path Float64.unit_square
  = ((0, 0) :: [(1, 0); (1, 1); (0, 1)])%float ++ [(0, 0)%float] /\
  (forall y,
      In y (Float64.computed_scores Float64.mean0 Float64.dot
              Float64.unit_square (1, 1)%float) ->
      is_nan y = false) /\
  exists i c s,
    Float64.get_connection_point Float64.mean0 Float64.dot
      Float64.unit_square (1, 1)%float = Ok c /\
    nth_error (Float64.candidate_set [(0, 0); (1, 0); (1, 1); (0, 1)]%float) i
    = Some c /\
    In c (Float64.candidate_set [(0, 0); (1, 0); (1, 1); (0, 1)]%float) /\
    nth_error (Float64.computed_scores Float64.mean0 Float64.dot
                 Float64.unit_square (1, 1)%float) i = Some s /\
    (forall s',
        In s' (Float64.computed_scores Float64.mean0 Float64.dot
                 Float64.unit_square (1, 1)%float) ->
        (s' <=? s)%float = true) /\
    (forall j s', (j < i)%nat ->
        nth_error (Float64.computed_scores Float64.mean0 Float64.dot
                     Float64.unit_square (1, 1)%float) j = Some s' ->
        (s' <? s)%float = true).
Proof.
  assert (Hnan : forall y,
             In y (Float64.computed_scores Float64.mean0 Float64.dot
                     Float64.unit_square (1, 1)%float) ->
             is_nan y = false)
    by (apply no_nan_forallb; vm_compute; reflexivity).
  split; [reflexivity |]. split; [reflexivity |]. split; [exact Hnan |].
  apply (best_computed_candidate Float64.mean0 Float64.dot dot_length
           Float64.unit_square (0, 0)%float [(1, 0); (1, 1); (0, 1)]%float
           (1, 1)%float);
    [reflexivity | reflexivity | exact Hnan].
Defined.


Lemma connection_point_rows_witness :
  Float64.by_path Float64.empty_list /\ Float64.path Float64.empty_list = [] /\
  Float64.get_connection_point Float64.mean0 Float64.dot
    Float64.empty_list (1, 0)%float = Raise TypeError /\
  Float64.by_path Float64.single_row /\
  List.length (Float64.path Float64.single_row) = 1%nat /\
  Float64.get_connection_point Float64.mean0 Float64.dot
    Float64.single_row (1, 0)%float = Raise ValueError.
Proof.
  split; [reflexivity |]. split; [reflexivity |].
  split; [apply (proj1 (connection_point_rows Float64.mean0 Float64.dot
                          dot_length Float64.empty_list (1, 0)%float eq_refl));
          reflexivity |].
  split; [reflexivity |]. split; [reflexivity |].
  apply (proj1 (proj2 (connection_point_rows Float64.mean0 Float64.dot
                         dot_length Float64.single_row (1, 0)%float eq_refl))).
  reflexivity.
Defined.
